(** * Webcam object recognition front end: capture loop, recognition client,
      results presenter

    A shallow embedding of the React front end:
    - [ObjectRecognition.js]: the results presenter ([getConfidenceColor]);
    - [App.js]: the coordinator, four [useState] cells and five handlers;
    - [WebcamCapture.js]: the capture/recognize loop, its handlers and its
      [useEffect] hooks.

    JavaScript numbers are IEEE 754 binary64 values, modelled by Rocq's
    primitive floats.  React is modelled by what the component relies on:
    state cells written by a handler are read by the closures of the next
    render only; refs are read and written in place; after a render the
    clean-ups of the effects whose dependencies changed run first, then the
    effect bodies, in declaration order.  An event (a click, a timer that
    fires, a camera callback, a response) is handled to the end, renders
    and effects included, before the next one; time is the order of the
    events, and what the page does is recorded in a trace. *)

From Stdlib Require Import List String Bool PArith NArith ZArith Lia Floats.
Import ListNotations.

Set Warnings "-register-all,-inexact-float".

Local Open Scope string_scope.
Local Open Scope list_scope.

(** ** JavaScript values *)

Module Js.

(** The values a parsed response body can hold, and [undefined] for a
    missing property. *)
Inductive Value : Type :=
| Undefined
| Null
| Boolean (b : bool)
| Number (x : float)
| Str (s : string)
| Arr (items : list Value)
| Obj (fields : list (string * Value)).

(** ToBoolean: [undefined], [null], [false], [0], [-0], [NaN] and the empty string
    are falsy, everything else (every array and object too) is truthy. *)
Definition truthy (v : Value) : bool :=
  match v with
  | Undefined | Null => false
  | Boolean b => b
  | Number x => negb (PrimFloat.eqb x 0%float || PrimFloat.is_nan x)
  | Str s => negb (String.eqb s "")
  | Arr _ | Obj _ => true
  end.

(** Own property of a parsed object (its keys are distinct). *)
Fixpoint lookup (key : string) (fields : list (string * Value)) : Value :=
  match fields with
  | [] => Undefined
  | (k, v) :: rest => if String.eqb k key then v else lookup key rest
  end.

(** [v.objects] for a value [v] that is neither [null] nor [undefined]:
    own property of an object, [undefined] on strings, numbers, booleans
    and arrays. *)
Definition objects (v : Value) : Value :=
  match v with
  | Obj fields => lookup "objects" fields
  | _ => Undefined
  end.

(** [!imageSrc] is false exactly for a non-empty string. *)
Definition truthy_string (s : option string) : bool :=
  match s with
  | Some s => negb (String.eqb s "")
  | None => false
  end.

(** [a >= b] on numbers. *)
Definition ge (a b : float) : bool := PrimFloat.leb b a.

(** [a < b] on numbers. *)
Definition lt (a b : float) : bool := PrimFloat.ltb a b.

End Js.

(** ** Results presenter (ObjectRecognition.js) *)

Record Detection : Type := {
  name : string;
  confidence : float
}.

Definition getConfidenceColor (confidence : float) : string :=
  if Js.ge confidence 0.8%float then "high-confidence"
  else if Js.ge confidence 0.5%float then "medium-confidence"
  else "low-confidence".

(** The class given to the confidence bar of one list item. *)
Definition itemClass (obj : Detection) : string :=
  getConfidenceColor (confidence obj).

(** ** Coordinator (App.js) *)

(** A JavaScript [Error]: only its [message] is read. *)
Record Error : Type := { message : string }.

Module App.

(** The four [useState] cells of [App]. *)
Record State : Type := {
  recognizedObjects : Js.Value;
  isRecognizing : bool;
  error : option string;
  isCapturing : bool
}.

Definition initial : State :=
  {| recognizedObjects := Js.Arr [];
     isRecognizing := false;
     error := None;
     isCapturing := false |}.

Definition handleObjectsRecognized (objects : Js.Value) (s : State) : State :=
  {| recognizedObjects := objects;
     isRecognizing := false;
     error := error s;
     isCapturing := isCapturing s |}.

Definition handleRecognitionStart (s : State) : State :=
  {| recognizedObjects := recognizedObjects s;
     isRecognizing := true;
     error := None;
     isCapturing := isCapturing s |}.

Definition handleError (err : Error) (s : State) : State :=
  {| recognizedObjects := recognizedObjects s;
     isRecognizing := false;
     error := Some (message err);
     isCapturing := isCapturing s |}.

Definition handleStartCapture (s : State) : State :=
  {| recognizedObjects := recognizedObjects s;
     isRecognizing := isRecognizing s;
     error := error s;
     isCapturing := true |}.

Definition handleStopCapture (s : State) : State :=
  {| recognizedObjects := recognizedObjects s;
     isRecognizing := isRecognizing s;
     error := error s;
     isCapturing := false |}.

(** The results section: the "Recognizing objects..." message while a
    recognition is in progress, else the presenter on the stored list. *)
Inductive ResultsView : Type :=
| RecognizingMessage
| Presenter (objects : Js.Value).

Definition resultsView (s : State) : ResultsView :=
  if isRecognizing s then RecognizingMessage
  else Presenter (recognizedObjects s).

End App.

(** ** Capture loop (WebcamCapture.js): the world it runs in *)

(** What the outside can observe, in the order it happens: the calls of the
    props of [WebcamCapture], of the timer API, of [getScreenshot] and of
    [axios.post]. *)
Inductive Effect : Type :=
| OnStartCapture
| OnStopCapture
| OnRecognitionStart
| OnObjectsRecognized (objects : Js.Value)
| OnError (err : Error)
| SetInterval (id : positive) (ms : N)
| ClearInterval (id : positive)
| GetScreenshot
| AxiosPost (request : nat) (url image : string).

(** The two functions handed to [setInterval]: [captureAndRecognize] itself
    (in [startCapturing]) and the arrow function that tests
    [isCapturingRef.current] first (in the resume effect). *)
Inductive TimerCallback : Type :=
| Direct
| Guarded.

(** The mounted [Webcam]: [getScreenshot()] returns a data URL, or [null]
    as long as no frame is available. *)
Record Webcam : Type := { getScreenshot : option string }.

(** The values a render closes over: the prop [isCapturing] and the two
    state cells.  They are also the dependencies of the effects. *)
Record Closure : Type := {
  c_isCapturing : bool;
  c_captureInterval : option positive;
  c_isCameraReady : bool
}.

Record World : Type := {
  app : App.State;                          (* state cells of App *)
  captureInterval : option positive;        (* useState(null) *)
  isCameraReady : bool;                     (* useState(false) *)
  webcamRef : option Webcam;                (* useRef(null) *)
  isCapturingRef : bool;                    (* useRef(isCapturing) *)
  rendered : Closure;                       (* closure of the last render *)
  timers : list (positive * TimerCallback); (* scheduled intervals *)
  nextTimer : positive;                     (* handles are > 0 and fresh *)
  inflight : list nat;                      (* awaited requests *)
  nextRequest : nat;
  trace : list Effect
}.

Definition set_app (a : App.State) (w : World) : World :=
  {| app := a; captureInterval := captureInterval w;
     isCameraReady := isCameraReady w; webcamRef := webcamRef w;
     isCapturingRef := isCapturingRef w; rendered := rendered w;
     timers := timers w; nextTimer := nextTimer w; inflight := inflight w;
     nextRequest := nextRequest w; trace := trace w |}.

Definition setCaptureInterval (i : option positive) (w : World) : World :=
  {| app := app w; captureInterval := i;
     isCameraReady := isCameraReady w; webcamRef := webcamRef w;
     isCapturingRef := isCapturingRef w; rendered := rendered w;
     timers := timers w; nextTimer := nextTimer w; inflight := inflight w;
     nextRequest := nextRequest w; trace := trace w |}.

Definition setIsCameraReady (b : bool) (w : World) : World :=
  {| app := app w; captureInterval := captureInterval w;
     isCameraReady := b; webcamRef := webcamRef w;
     isCapturingRef := isCapturingRef w; rendered := rendered w;
     timers := timers w; nextTimer := nextTimer w; inflight := inflight w;
     nextRequest := nextRequest w; trace := trace w |}.

Definition set_webcamRef (c : option Webcam) (w : World) : World :=
  {| app := app w; captureInterval := captureInterval w;
     isCameraReady := isCameraReady w; webcamRef := c;
     isCapturingRef := isCapturingRef w; rendered := rendered w;
     timers := timers w; nextTimer := nextTimer w; inflight := inflight w;
     nextRequest := nextRequest w; trace := trace w |}.

Definition set_isCapturingRef (b : bool) (w : World) : World :=
  {| app := app w; captureInterval := captureInterval w;
     isCameraReady := isCameraReady w; webcamRef := webcamRef w;
     isCapturingRef := b; rendered := rendered w;
     timers := timers w; nextTimer := nextTimer w; inflight := inflight w;
     nextRequest := nextRequest w; trace := trace w |}.

Definition set_rendered (c : Closure) (w : World) : World :=
  {| app := app w; captureInterval := captureInterval w;
     isCameraReady := isCameraReady w; webcamRef := webcamRef w;
     isCapturingRef := isCapturingRef w; rendered := c;
     timers := timers w; nextTimer := nextTimer w; inflight := inflight w;
     nextRequest := nextRequest w; trace := trace w |}.

Definition set_timers (ts : list (positive * TimerCallback)) (next : positive)
    (w : World) : World :=
  {| app := app w; captureInterval := captureInterval w;
     isCameraReady := isCameraReady w; webcamRef := webcamRef w;
     isCapturingRef := isCapturingRef w; rendered := rendered w;
     timers := ts; nextTimer := next; inflight := inflight w;
     nextRequest := nextRequest w; trace := trace w |}.

Definition set_inflight (rs : list nat) (next : nat) (w : World) : World :=
  {| app := app w; captureInterval := captureInterval w;
     isCameraReady := isCameraReady w; webcamRef := webcamRef w;
     isCapturingRef := isCapturingRef w; rendered := rendered w;
     timers := timers w; nextTimer := nextTimer w; inflight := rs;
     nextRequest := next; trace := trace w |}.

Definition log (e : Effect) (w : World) : World :=
  {| app := app w; captureInterval := captureInterval w;
     isCameraReady := isCameraReady w; webcamRef := webcamRef w;
     isCapturingRef := isCapturingRef w; rendered := rendered w;
     timers := timers w; nextTimer := nextTimer w; inflight := inflight w;
     nextRequest := nextRequest w; trace := trace w ++ [e] |}.

(** *** The props passed by [App] *)

Definition onStartCapture (w : World) : World :=
  log OnStartCapture (set_app (App.handleStartCapture (app w)) w).

Definition onStopCapture (w : World) : World :=
  log OnStopCapture (set_app (App.handleStopCapture (app w)) w).

Definition onRecognitionStart (w : World) : World :=
  log OnRecognitionStart (set_app (App.handleRecognitionStart (app w)) w).

Definition onObjectsRecognized (objects : Js.Value) (w : World) : World :=
  log (OnObjectsRecognized objects)
      (set_app (App.handleObjectsRecognized objects (app w)) w).

Definition onError (err : Error) (w : World) : World :=
  log (OnError err) (set_app (App.handleError err (app w)) w).

(** *** The browser: timers and the network *)

Definition setInterval (cb : TimerCallback) (ms : N) (w : World)
    : positive * World :=
  let id := nextTimer w in
  (id, log (SetInterval id ms)
           (set_timers (timers w ++ [(id, cb)]) (Pos.succ id) w)).

(** Clearing a handle that is not scheduled does nothing. *)
Definition clearInterval (id : positive) (w : World) : World :=
  log (ClearInterval id)
      (set_timers (filter (fun t => negb (Pos.eqb (fst t) id)) (timers w))
                  (nextTimer w) w).

Definition axiosPost (url image : string) (w : World) : World :=
  let k := nextRequest w in
  log (AxiosPost k url image) (set_inflight (inflight w ++ [k]) (S k) w).

(** How the awaited [axios.post] settles: it resolves with [response.data],
    or rejects (no response, or a status outside 2xx). *)
Inductive AxiosOutcome : Type :=
| Resolved (data : Js.Value)
| Rejected (err : Error).

(** *** Recognition client: the part of [captureAndRecognize] after [await] *)

Inductive Completion : Type :=
| Recognized (objects : Js.Value)
| Failed (err : Error).

Definition invalidResponse : Error :=
  {| message := "Invalid response from recognition service" |}.

(** [if (response.data && response.data.objects)]; the error thrown in the
    else branch and the rejection of [axios.post] both go through the inner
    [catch], which throws them again, to the outer one. *)
Definition processResponse (o : AxiosOutcome) : Completion :=
  match o with
  | Resolved data =>
      if Js.truthy data && Js.truthy (Js.objects data)
      then Recognized (Js.objects data)
      else Failed invalidResponse
  | Rejected err => Failed err
  end.

Definition complete (c : Completion) (w : World) : World :=
  match c with
  | Recognized objects => onObjectsRecognized objects w
  | Failed err => onError err w
  end.

(** *** [captureAndRecognize], up to the [await] *)

Definition RECOGNITION_API_URL : string :=
  "http://127.0.0.1:3006/api/recognize".

(** The [video] element read for the log line exists whenever the ref is
    attached. *)
Definition captureAndRecognize (w : World) : World :=
  match webcamRef w with
  | None => w
  | Some cam =>
      let currentIsCapturing := isCapturingRef w in
      if negb currentIsCapturing then w
      else
        let imageSrc := getScreenshot cam in
        let w1 := log GetScreenshot w in
        if negb (Js.truthy_string imageSrc) then w1
        else
          match imageSrc with
          | Some image =>
              axiosPost RECOGNITION_API_URL image (onRecognitionStart w1)
          | None => w1
          end
  end.

(** *** Handlers; [c] is the closure of the render that created them *)

Definition startCapturing (c : Closure) (w : World) : World :=
  if c_isCapturing c then w
  else
    let w1 := onStartCapture w in
    let (interval, w2) := setInterval Direct 3000 w1 in
    let w3 := setCaptureInterval (Some interval) w2 in
    captureAndRecognize w3.

Definition stopCapturing (c : Closure) (w : World) : World :=
  if negb (c_isCapturing c) then w
  else
    let w1 := onStopCapture w in
    match c_captureInterval c with
    | Some interval => setCaptureInterval None (clearInterval interval w1)
    | None => w1
    end.

Definition toggleCapture (c : Closure) (w : World) : World :=
  if negb (c_isCameraReady c) then w
  else if c_isCapturing c then stopCapturing c w
  else startCapturing c w.

Definition webcamError : Error :=
  {| message := "Failed to access webcam. Please make sure it is connected and you have granted permission." |}.

(** The object handed to [onUserMediaError]: [name] and [message] may be
    missing. *)
Record MediaError : Type := {
  errorName : option string;
  errorMessage : option string
}.

(** [text.includes(part)] *)
Fixpoint includes (part text : string) : bool :=
  String.prefix part text
  || match text with
     | EmptyString => false
     | String _ rest => includes part rest
     end.

Inductive CameraFailure : Type :=
| PermissionDenied
| NoCameraFound
| CameraInUse
| OtherFailure.

Definition nameIs (n : string) (error : MediaError) : bool :=
  match errorName error with
  | Some m => String.eqb m n
  | None => false
  end.

(** The chain of tests that chooses the log line.  [||] does not look at
    [error.message] when the name decides; [error.message.includes] throws
    a TypeError, [None] here, when there is no message. *)
Definition classifyWebcamError (error : MediaError) : option CameraFailure :=
  if nameIs "NotAllowedError" error then Some PermissionDenied
  else
    match errorMessage error with
    | None => None
    | Some text =>
        if includes "Permission denied" text then Some PermissionDenied
        else if nameIs "NotFoundError" error || includes "Could not find" text
        then Some NoCameraFound
        else if nameIs "NotReadableError" error
                || includes "Could not start video source" text
        then Some CameraInUse
        else Some OtherFailure
    end.

(** The exception leaves the handler before [setIsCameraReady(false)] and
    [onError]. *)
Definition handleWebcamError (error : MediaError) (w : World) : World :=
  match classifyWebcamError error with
  | None => w
  | Some _ => onError webcamError (setIsCameraReady false w)
  end.

Definition handleWebcamInit (w : World) : World :=
  setIsCameraReady true w.

(** *** Effects *)

(** [useEffect(() => { isCapturingRef.current = isCapturing }, [isCapturing])] *)
Definition syncRef (c : Closure) (w : World) : World :=
  set_isCapturingRef (c_isCapturing c) w.

(** Clean-up of the effect on [[captureInterval]]. *)
Definition cleanupInterval (c : Closure) (w : World) : World :=
  match c_captureInterval c with
  | Some interval => setCaptureInterval None (clearInterval interval w)
  | None => w
  end.

(** [isCapturing && !captureInterval && isCameraReady] *)
Definition resumeGuard (c : Closure) : bool :=
  c_isCapturing c
  && negb (match c_captureInterval c with Some _ => true | None => false end)
  && c_isCameraReady c.

(** The effect that sets the interval up again; among its dependencies is
    [captureAndRecognize], a new function on every render of [App], so it
    runs after every render. *)
Definition resumeEffect (c : Closure) (w : World) : World :=
  if resumeGuard c
  then
    let (interval, w1) := setInterval Guarded 3000 w in
    let w2 := setCaptureInterval (Some interval) w1 in
    if c_isCapturing c then captureAndRecognize w2 else w2
  else w.

(** *** Rendering *)

Definition snapshot (w : World) : Closure :=
  {| c_isCapturing := App.isCapturing (app w);
     c_captureInterval := captureInterval w;
     c_isCameraReady := isCameraReady w |}.

Definition interval_eqb (a b : option positive) : bool :=
  match a, b with
  | Some i, Some j => Pos.eqb i j
  | None, None => true
  | _, _ => false
  end.

Definition closure_eqb (a b : Closure) : bool :=
  Bool.eqb (c_isCapturing a) (c_isCapturing b)
  && interval_eqb (c_captureInterval a) (c_captureInterval b)
  && Bool.eqb (c_isCameraReady a) (c_isCameraReady b).

(** One render and its commit: the clean-ups of the effects whose
    dependencies changed, then the effects. *)
Definition commit (w : World) : World :=
  let prev := rendered w in
  let cur := snapshot w in
  let w0 := set_rendered cur w in
  let w1 :=
    if interval_eqb (c_captureInterval prev) (c_captureInterval cur) then w0
    else cleanupInterval prev w0 in
  let w2 :=
    if Bool.eqb (c_isCapturing prev) (c_isCapturing cur) then w1
    else syncRef cur w1 in
  resumeEffect cur w2.

(** No state cell differs from what the last render saw. *)
Definition stable (w : World) : bool := closure_eqb (rendered w) (snapshot w).

(** Render again as long as an effect has written a state cell. *)
Fixpoint settle (fuel : nat) (w : World) : World :=
  match fuel with
  | O => w
  | S fuel' =>
      let w' := commit w in
      if stable w' then w' else settle fuel' w'
  end.

(** Unmounting runs the clean-up and detaches the ref; mounting starts from
    fresh cells and runs every effect. *)
Definition unmount (w : World) : World :=
  set_webcamRef None (cleanupInterval (rendered w) w).

Definition mount (w : World) : World :=
  let c := {| c_isCapturing := App.isCapturing (app w);
              c_captureInterval := None;
              c_isCameraReady := false |} in
  let w1 := setCaptureInterval None (setIsCameraReady false w) in
  let w2 := set_isCapturingRef (App.isCapturing (app w)) w1 in
  let w3 := set_webcamRef (Some {| getScreenshot := None |}) w2 in
  resumeEffect c (syncRef c (set_rendered c w3)).

(** In development [React.StrictMode] (index.js) runs the clean-ups and
    the effects of a newly mounted component once more. *)
Definition strictMount (w : World) : World :=
  let w1 := mount w in
  let c := rendered w1 in
  resumeEffect c (syncRef c (cleanupInterval c w1)).

(** *** Events *)

Definition fire (cb : TimerCallback) (w : World) : World :=
  match cb with
  | Direct => captureAndRecognize w
  | Guarded => if isCapturingRef w then captureAndRecognize w else w
  end.

Definition tick (id : positive) (w : World) : World :=
  match find (fun t => Pos.eqb (fst t) id) (timers w) with
  | Some (_, cb) => fire cb w
  | None => w
  end.

Definition respond (k : nat) (o : AxiosOutcome) (w : World) : World :=
  if existsb (Nat.eqb k) (inflight w)
  then complete (processResponse o)
         (set_inflight (filter (fun j => negb (Nat.eqb j k)) (inflight w))
                       (nextRequest w) w)
  else w.

Definition setFrame (f : option string) (w : World) : World :=
  match webcamRef w with
  | Some _ => set_webcamRef (Some {| getScreenshot := f |}) w
  | None => w
  end.

Inductive Event : Type :=
| Start                                   (* startCapturing() *)
| Stop                                    (* stopCapturing() *)
| Toggle                                  (* click on the button *)
| WebcamInit                              (* onUserMedia *)
| WebcamError (error : MediaError)         (* onUserMediaError *)
| Tick (id : positive)                    (* an interval fires *)
| Remount                                 (* unmount, then mount *)
| Frame (f : option string)               (* the camera's frame changes *)
| Response (k : nat) (o : AxiosOutcome).  (* an awaited request settles *)

Definition handle (e : Event) (w : World) : World :=
  match e with
  | Start => startCapturing (rendered w) w
  | Stop => stopCapturing (rendered w) w
  | Toggle => toggleCapture (rendered w) w
  | WebcamInit => handleWebcamInit w
  | WebcamError error => handleWebcamError error w
  | Tick id => tick id w
  | Remount => mount (unmount w)
  | Frame f => setFrame f w
  | Response k o => respond k o w
  end.

(** An event: its handler, then React renders until nothing changes.  Two
    renders are enough ([settle_enough]), and a render that was not needed
    changes nothing ([commit_Inv_id]).  The renders are those of
    [WebcamCapture]; what [ObjectRecognition] makes of the stored value is
    [presenterBranch] below, and a stored value on which it throws ends the
    page: a run is followed up to there. *)
Definition step (e : Event) (w : World) : World := settle 3 (handle e w).

Definition run (es : list Event) (w : World) : World :=
  fold_left (fun w e => step e w) es w.

(** The page before [WebcamCapture] is mounted, and after. *)
Definition blank : World :=
  {| app := App.initial; captureInterval := None; isCameraReady := false;
     webcamRef := None; isCapturingRef := false;
     rendered := {| c_isCapturing := false; c_captureInterval := None;
                    c_isCameraReady := false |};
     timers := []; nextTimer := 1%positive; inflight := []; nextRequest := 0;
     trace := [] |}.

Definition initial : World := mount blank.

Inductive reachable : World -> Prop :=
| reachable_initial : reachable initial
| reachable_step (e : Event) (w : World) :
    reachable w -> reachable (step e w).


(** ** The invariant of the capture loop *)

(** The scheduled intervals are exactly the one held in the state cell. *)
Definition scheduled (ci : option positive)
    (ts : list (positive * TimerCallback)) : Prop :=
  match ci with
  | Some i => exists cb, ts = [(i, cb)]
  | None => ts = []
  end.

Definition attached (w : World) : bool :=
  match webcamRef w with Some _ => true | None => false end.

(** What holds between two events. *)
Record Inv (w : World) : Prop := {
  inv_rendered : rendered w = snapshot w;
  inv_ref : isCapturingRef w = App.isCapturing (app w);
  inv_timers : scheduled (captureInterval w) (timers w);
  inv_active :
    captureInterval w <> None -> App.isCapturing (app w) = true;
  inv_resumed : resumeGuard (snapshot w) = false;
  inv_webcam : attached w = true
}.

(** What holds after a handler has run and before React has rendered
    again: the closure and the ref are still those of the last render. *)
Record Pending (w : World) : Prop := {
  pen_ref : isCapturingRef w = c_isCapturing (rendered w);
  pen_timers : scheduled (captureInterval w) (timers w);
  pen_active :
    captureInterval w <> None -> App.isCapturing (app w) = true;
  pen_interval :
    forall i, c_captureInterval (rendered w) = Some i ->
    captureInterval w = Some i \/ captureInterval w = None;
  pen_webcam : attached w = true
}.

(** The part of the world the invariant reads. *)
Definition core (w : World) :=
  (App.isCapturing (app w), captureInterval w, isCameraReady w,
   isCapturingRef w, rendered w, timers w, attached w).

(** ** Vocabulary of the statements *)

(** What [getScreenshot()] returns now. *)
Definition currentFrame (w : World) : option string :=
  match webcamRef w with
  | Some cam => getScreenshot cam
  | None => None
  end.

(** What one run of [captureAndRecognize] that gets past its two guards
    does: the acquisition, and with a frame the start notification and the
    request. *)
Definition attempt (w : World) : list Effect :=
  GetScreenshot ::
  match currentFrame w with
  | Some image =>
      if String.eqb image "" then []
      else [OnRecognitionStart;
            AxiosPost (nextRequest w) RECOGNITION_API_URL image]
  | None => []
  end.

(** The body holds an [objects] property that is a list. *)
Definition hasObjectsList (data : Js.Value) : bool :=
  match data with
  | Js.Obj fields =>
      match Js.lookup "objects" fields with
      | Js.Arr _ => true
      | _ => false
      end
  | _ => false
  end.

Definition isStopNotice (e : Effect) : bool :=
  match e with OnStopCapture => true | _ => false end.

Definition isStartNotice (e : Effect) : bool :=
  match e with OnStartCapture => true | _ => false end.

Definition isErrorNotice (e : Effect) : bool :=
  match e with OnError _ => true | _ => false end.

Definition isClear (e : Effect) : bool :=
  match e with ClearInterval _ => true | _ => false end.

Definition isAcquisition (e : Effect) : bool :=
  match e with GetScreenshot => true | _ => false end.

Definition isRequest (e : Effect) : bool :=
  match e with AxiosPost _ _ _ => true | _ => false end.

Definition count (p : Effect -> bool) (l : list Effect) : nat :=
  List.length (filter p l).

(** A page whose camera is initialised and delivers frames. *)
Definition frame0 : string := "data:image/jpeg;base64,AAAA".

Definition ready : World := run [WebcamInit; Frame (Some frame0)] initial.

(** Runs and values used to instantiate the statements. *)
Definition networkError : Error := {| message := "Network Error" |}.

Definition cat : Detection := {| name := "cat"; confidence := 0.92 |}.

Definition catList : Js.Value :=
  Js.Arr [Js.Obj [("name", Js.Str "cat"); ("confidence", Js.Number 0.92)]].

Definition wrongField : Js.Value := Js.Obj [("detections", Js.Arr [])].

Definition emptyList : Js.Value := Js.Obj [("objects", Js.Arr [])].

Definition resumedRun : list Event :=
  [WebcamInit; Toggle; Tick 1; Remount; WebcamInit].

Definition polledRun : list Event :=
  [WebcamInit; Frame (Some frame0); Toggle; Tick 1].

Definition recognizedRun : list Event :=
  [WebcamInit; Frame (Some frame0); Toggle; Tick 1;
   Response 0 (Resolved (Js.Obj [("objects", catList)])); Tick 1].

Definition remountedRun : list Event :=
  [WebcamInit; Frame (Some frame0); Toggle; Remount; Frame (Some frame0)].

(** ** Vocabulary of the further properties *)

Definition isRecognitionStart (e : Effect) : bool :=
  match e with OnRecognitionStart => true | _ => false end.

(** The coordinator's state after the callbacks of a trace, in order. *)
Definition replayNotice (s : App.State) (e : Effect) : App.State :=
  match e with
  | OnStartCapture => App.handleStartCapture s
  | OnStopCapture => App.handleStopCapture s
  | OnRecognitionStart => App.handleRecognitionStart s
  | OnObjectsRecognized objects => App.handleObjectsRecognized objects s
  | OnError err => App.handleError err s
  | _ => s
  end.

Definition replay (t : list Effect) : App.State :=
  fold_left replayNotice t App.initial.

(** How the trace and the state go together. *)
Record Accounted (w : World) : Prop := {
  acc_notices :
    count isStartNotice (trace w)
    = count isStopNotice (trace w) + Nat.b2n (App.isCapturing (app w));
  acc_started :
    count isRecognitionStart (trace w) = count isRequest (trace w);
  acc_requests : count isRequest (trace w) = nextRequest w;
  acc_replay : app w = replay (trace w)
}.

Definition isSuccessNotice (e : Effect) : bool :=
  match e with OnObjectsRecognized _ => true | _ => false end.

(** What [ObjectRecognition] does with its [objects] prop before it comes
    to the items: the default [[]] stands in for [undefined];
    [objects.length === 0] selects the placeholder; otherwise
    [objects.map] is called, which only an array has. *)
Inductive PresenterBranch : Type :=
| Placeholder
| ObjectsList (items : list Js.Value)
| TypeError.

Definition presenterBranch (objects : Js.Value) : PresenterBranch :=
  match objects with
  | Js.Undefined => Placeholder
  | Js.Null => TypeError
  | Js.Arr [] => Placeholder
  | Js.Arr items => ObjectsList items
  | Js.Str s => if String.eqb s "" then Placeholder else TypeError
  | Js.Obj fields =>
      match Js.lookup "length" fields with
      | Js.Number x => if PrimFloat.eqb x 0 then Placeholder else TypeError
      | _ => TypeError
      end
  | Js.Number _ | Js.Boolean _ => TypeError
  end.

(** The shape the presenter is written for: a list of objects with a
    string [name] and a number [confidence]. *)
Definition isDetection (item : Js.Value) : bool :=
  match item with
  | Js.Obj fields =>
      match Js.lookup "name" fields, Js.lookup "confidence" fields with
      | Js.Str _, Js.Number _ => true
      | _, _ => false
      end
  | _ => false
  end.

Definition isDetectionList (v : Js.Value) : bool :=
  match v with
  | Js.Arr items => forallb isDetection items
  | _ => false
  end.

(** The page has rendered so far: every value handed to the success
    callback, which the presenter is shown with from the next render on,
    was such a list. *)
Definition rendersDetections (e : Effect) : bool :=
  match e with
  | OnObjectsRecognized objects => isDetectionList objects
  | _ => true
  end.

Definition renderedSoFar (w : World) : bool :=
  forallb rendersDetections (trace w).

Definition catBody : Js.Value := Js.Obj [("objects", Js.Str "cat")].

Definition isPrimitive (v : Js.Value) : bool :=
  match v with
  | Js.Boolean _ | Js.Number _ | Js.Str _ => true
  | _ => false
  end.

(** * Proofs *)

(** ** Facts on binary64 comparison *)

Section FloatOrder.

Lemma SFcompare_antisym (a b : spec_float) :
  SFcompare b a = option_map CompOpp (SFcompare a b).
Proof.
  destruct a as [sa|sa| |sa ma ea], b as [sb|sb| |sb mb eb]; simpl;
    try reflexivity;
    try (destruct sa; reflexivity);
    try (destruct sb; reflexivity);
    try (destruct sa, sb; reflexivity).
  destruct sa, sb; simpl; try reflexivity;
    rewrite (Z.compare_antisym ea eb);
    destruct (ea ?= eb)%Z; simpl; try reflexivity;
    rewrite (Pos.compare_cont_antisym ma mb Eq); simpl;
    try rewrite CompOpp_involutive; reflexivity.
Qed.

Lemma SFleb_negb_SFltb (a b : spec_float) :
  SFeqb a a = true -> SFeqb b b = true ->
  SFleb a b = negb (SFltb b a).
Proof.
  unfold SFeqb, SFleb, SFltb. intros Ha Hb.
  rewrite (SFcompare_antisym a b).
  assert (Hc : exists c, SFcompare a b = Some c).
  { destruct a, b; simpl in *; try discriminate; eexists; reflexivity. }
  destruct Hc as [c ->]. destruct c; reflexivity.
Qed.

(** On numbers that are not NaN, [a >= b] fails exactly when [a < b]. *)
Lemma ge_false_lt (a b : float) :
  PrimFloat.is_nan a = false -> PrimFloat.is_nan b = false ->
  Js.ge a b = negb (Js.lt a b).
Proof.
  unfold Js.ge, Js.lt, PrimFloat.is_nan. intros Ha Hb.
  apply negb_false_iff in Ha. apply negb_false_iff in Hb.
  rewrite eqb_spec in Ha, Hb.
  rewrite leb_spec, ltb_spec.
  apply SFleb_negb_SFltb; assumption.
Qed.

(** 0.8 and 0.5 have the same exponent, so the mantissas decide. *)
Lemma ge_08_05 (c : float) : Js.ge c 0.8 = true -> Js.ge c 0.5 = true.
Proof.
  unfold Js.ge. rewrite !leb_spec.
  remember (Prim2SF 0.8) as a eqn:Ea. vm_compute in Ea. subst a.
  remember (Prim2SF 0.5) as b eqn:Eb. vm_compute in Eb. subst b.
  destruct (Prim2SF c) as [s|s| |s m e]; unfold SFleb, SFcompare;
    try (destruct s; intros; (reflexivity || discriminate)); try discriminate.
  destruct s; [discriminate|].
  destruct (-53 ?= e)%Z; try (intros; reflexivity || discriminate).
  change (Pos.compare_cont Eq ?p ?q) with (Pos.compare p q).
  intros H.
  assert (H8 : (7205759403792794 <= m)%positive).
  { unfold Pos.le. destruct (7205759403792794 ?= m)%positive;
      discriminate. }
  assert (H58 : (4503599627370496 <= 7205759403792794)%positive).
  { vm_compute. discriminate. }
  assert (H5 := Pos.le_trans _ _ _ H58 H8). unfold Pos.le in H5.
  destruct (4503599627370496 ?= m)%positive; try reflexivity.
  exfalso. apply H5. reflexivity.
Qed.

End FloatOrder.

(** ** Proof tools *)

(** Unfolds the model by value, so that a setter applied to a setter is
    reduced before it is copied. *)
Ltac unfold_model :=
  cbv beta iota zeta delta
    [step handle commit stable closure_eqb interval_eqb
     snapshot mount unmount respond complete setFrame tick fire
     resumeEffect resumeGuard cleanupInterval syncRef
     handleWebcamInit handleWebcamError toggleCapture stopCapturing
     startCapturing captureAndRecognize axiosPost clearInterval setInterval
     onError onObjectsRecognized onRecognitionStart onStopCapture
     onStartCapture log set_inflight set_timers set_rendered
     set_isCapturingRef set_webcamRef setIsCameraReady setCaptureInterval
     set_app core attached
     App.handleObjectsRecognized App.handleRecognitionStart App.handleError
     App.handleStartCapture App.handleStopCapture
     App.recognizedObjects App.isRecognizing App.error App.isCapturing
     app captureInterval isCameraReady webcamRef isCapturingRef rendered
     timers nextTimer inflight nextRequest trace
     c_isCapturing c_captureInterval c_isCameraReady getScreenshot
     Js.truthy_string andb orb negb Bool.eqb fst snd] in *.

(** Case analysis on a stuck test, innermost first. *)
Ltac atomic_test x :=
  lazymatch x with
  | context [if _ then _ else _] => fail
  | context [match _ with _ => _ end] => fail
  | _ => idtac
  end.

Ltac break_match :=
  match goal with
  | |- context [if ?b then _ else _] => is_var b; destruct b
  | |- context [match ?x with _ => _ end] => is_var x; destruct x
  | |- context [if ?b then _ else _] => atomic_test b; destruct b eqn:?
  | |- context [match ?x with _ => _ end] => atomic_test x; destruct x eqn:?
  end.

Ltac simp :=
  repeat (progress (unfold_model; cbn in *;
                    try rewrite !Pos.eqb_refl in * )).

Ltac crunch := simp; repeat (break_match; simp).

(** [captureAndRecognize] leaves the loop alone. *)
Lemma captureAndRecognize_core (w : World) :
  core (captureAndRecognize w) = core w.
Proof. destruct w as [[] ? ? [[[]]|] [] ? ? ? ? ? ?]; crunch; reflexivity. Qed.

Lemma Inv_core (w w' : World) : core w' = core w -> Inv w -> Inv w'.
Proof.
  unfold core. intros E [H1 H2 H3 H4 H5 H6].
  injection E as E1 E2 E3 E4 E5 E6 E7.
  constructor; unfold snapshot in *;
    rewrite ?E1, ?E2, ?E3, ?E4, ?E5, ?E6, ?E7; assumption.
Qed.

(** Splits a world satisfying [Inv] into its three shapes: capturing with
    its one interval, idle, and capturing with no interval yet (camera not
    ready after a remount). *)
Ltac inv_shape w H :=
  let Hs := fresh "Hs" in let Hr := fresh "Hr" in let Ht := fresh "Ht" in
  let Ha := fresh "Ha" in let Hre := fresh "Hre" in
  let a := fresh "a" in let ci := fresh "ci" in let rdy := fresh "rdy" in
  let cam := fresh "cam" in let ref := fresh "ref" in let rd := fresh "rd" in
  let ts := fresh "ts" in let nt := fresh "nt" in let fl := fresh "fl" in
  let nr := fresh "nr" in let tr := fresh "tr" in
  let objs := fresh "objs" in let recog := fresh "recog" in
  let err := fresh "err" in let cap := fresh "cap" in
  let i := fresh "i" in let cb := fresh "cb" in
  let Hw := fresh "Hw" in let frame := fresh "frame" in
  destruct H as [Hs Hr Ht Ha Hre Hw];
  destruct w as [a ci rdy cam ref rd ts nt fl nr tr];
  destruct a as [objs recog err cap];
  unfold snapshot, resumeGuard, attached in Hs, Hre, Hw;
  cbn in Hs, Hr, Ht, Ha, Hre, Hw;
  destruct cam as [[frame]|]; [clear Hw | discriminate Hw];
  subst rd ref;
  destruct ci as [i|]; cbn in Ht;
  [ destruct Ht as [cb ->];
    rewrite (Ha ltac:(discriminate)) in *; clear Ha Hre
  | subst ts; clear Ha;
    destruct cap;
    [ destruct rdy; [ discriminate Hre | clear Hre ]
    | clear Hre ] ].

Ltac rec_done :=
  constructor; simp; try reflexivity; try congruence; eauto;
  try (intros; congruence);
  try (repeat match goal with b : bool |- _ => destruct b end;
       simp; congruence).

Lemma initial_Inv : Inv initial.
Proof. rec_done. Qed.

(** A handler leaves the world in a state React can render from. *)
Lemma handle_Pending (e : Event) (w : World) : Inv w -> Pending (handle e w).
Proof.
  intros H. inv_shape w H; destruct e; crunch; rec_done.
Qed.

Ltac pen_shape w H :=
  let Hr := fresh "Hr" in let Ht := fresh "Ht" in
  let Ha := fresh "Ha" in let Hi := fresh "Hi" in
  let a := fresh "a" in let ci := fresh "ci" in let rdy := fresh "rdy" in
  let cam := fresh "cam" in let ref := fresh "ref" in let rd := fresh "rd" in
  let ts := fresh "ts" in let nt := fresh "nt" in let fl := fresh "fl" in
  let nr := fresh "nr" in let tr := fresh "tr" in
  let objs := fresh "objs" in let recog := fresh "recog" in
  let err := fresh "err" in let cap := fresh "cap" in
  let pcap := fresh "pcap" in let pci := fresh "pci" in
  let prdy := fresh "prdy" in
  let i := fresh "i" in let j := fresh "j" in let cb := fresh "cb" in
  let E := fresh "E" in
  let Hw := fresh "Hw" in let frame := fresh "frame" in
  destruct H as [Hr Ht Ha Hi Hw];
  destruct w as [a ci rdy cam ref rd ts nt fl nr tr];
  destruct a as [objs recog err cap];
  destruct rd as [pcap pci prdy];
  unfold attached in Hw;
  cbn in Hr, Ht, Ha, Hi, Hw;
  destruct cam as [[frame]|]; [clear Hw | discriminate Hw];
  subst ref;
  destruct pci as [j|];
  [ destruct (Hi j eq_refl) as [E|E]; subst ci | ];
  clear Hi;
  [ | | destruct ci as [i|] ];
  cbn in Ht;
  [ destruct Ht as [cb ->]; rewrite (Ha ltac:(discriminate)) in *
  | subst ts
  | destruct Ht as [cb ->]; rewrite (Ha ltac:(discriminate)) in *
  | subst ts ];
  clear Ha.

Lemma Inv_stable (w : World) : Inv w -> stable w = true.
Proof.
  intros [H _ _ _ _ _]. unfold stable. rewrite H.
  destruct (snapshot w) as [[] [i|] []]; unfold closure_eqb, interval_eqb;
    cbn; rewrite ?Pos.eqb_refl; reflexivity.
Qed.

Lemma Pending_stable_Inv (w : World) :
  Pending w -> stable w = true -> resumeGuard (snapshot w) = false -> Inv w.
Proof.
  intros H Hs Hg. pen_shape w H; crunch; try discriminate.
  all: try (apply Pos.eqb_eq in Hs; subst).
  all: repeat match goal with b : bool |- _ => destruct b end;
       try discriminate; rec_done.
Qed.

(** A render in which the resume effect does not fire restores the
    invariant. *)
Lemma commit_quiet (w : World) :
  Pending w -> resumeGuard (snapshot w) = false -> Inv (commit w).
Proof.
  intros H Hg. pen_shape w H; crunch; try discriminate; rec_done.
Qed.

(** A render in which it fires needs one more render, in which it does
    not. *)
Lemma commit_resume (w : World) :
  Pending w -> resumeGuard (snapshot w) = true ->
  Pending (commit w) /\ resumeGuard (snapshot (commit w)) = false.
Proof.
  intros H Hg. pen_shape w H; crunch; try discriminate; split; rec_done.
Qed.

Lemma settle_Pending (w : World) : Pending w -> Inv (settle 3 w).
Proof.
  intros H. cbn [settle].
  destruct (resumeGuard (snapshot w)) eqn:Hg.
  - destruct (commit_resume w H Hg) as [H1 Hg1].
    destruct (stable (commit w)) eqn:Hs1.
    + apply Pending_stable_Inv; assumption.
    + rewrite (Inv_stable _ (commit_quiet _ H1 Hg1)).
      apply commit_quiet; assumption.
  - rewrite (Inv_stable _ (commit_quiet _ H Hg)).
    apply commit_quiet; assumption.
Qed.

Lemma step_Inv (e : Event) (w : World) : Inv w -> Inv (step e w).
Proof. intros H. apply settle_Pending, handle_Pending, H. Qed.

Lemma run_Inv (es : list Event) : forall w, Inv w -> Inv (run es w).
Proof.
  induction es as [|e es IH]; intros w H; [exact H|].
  apply (IH (step e w)), step_Inv, H.
Qed.

Lemma reachable_Inv (w : World) : reachable w -> Inv w.
Proof.
  induction 1 as [|e w _ IH]; [apply initial_Inv | apply step_Inv, IH].
Qed.

Lemma reachable_run (es : list Event) : reachable (run es initial).
Proof.
  assert (H : forall w, reachable w -> reachable (run es w)).
  { induction es as [|e es IH]; intros w Hw; [exact Hw|].
    apply (IH (step e w)), reachable_step, Hw. }
  apply H, reachable_initial.
Qed.

Lemma reachable_is_run (w : World) :
  reachable w -> exists es, w = run es initial.
Proof.
  induction 1 as [|e w _ [es ->]].
  - exists []. reflexivity.
  - exists (es ++ [e]). unfold run. rewrite fold_left_app. reflexivity.
Qed.

(** Between two events a render changes nothing. *)
Lemma commit_Inv_id (w : World) : Inv w -> commit w = w.
Proof. intros H. inv_shape w H; crunch; reflexivity. Qed.

Lemma settle_Inv_id (w : World) : Inv w -> settle 3 w = w.
Proof.
  intros H. cbn [settle]. rewrite (commit_Inv_id w H), (Inv_stable w H).
  reflexivity.
Qed.

Lemma settle_quiet (w : World) :
  Pending w -> resumeGuard (snapshot w) = false -> settle 3 w = commit w.
Proof.
  intros H Hg. cbn [settle].
  rewrite (Inv_stable _ (commit_quiet _ H Hg)). reflexivity.
Qed.

Lemma settle_resume (w : World) :
  Pending w -> resumeGuard (snapshot w) = true ->
  settle 3 w = commit (commit w).
Proof.
  intros H Hg. cbn [settle].
  destruct (commit_resume w H Hg) as [H1 Hg1].
  assert (Hs : stable (commit w) = false).
  { clear H1 Hg1. pen_shape w H;
      unfold resumeGuard, snapshot in Hg; cbn in Hg; try discriminate Hg.
    all: destruct cap; [|discriminate Hg]; destruct rdy; [|discriminate Hg].
    all: destruct pcap; crunch; reflexivity. }
  rewrite Hs, (Inv_stable _ (commit_quiet _ H1 Hg1)). reflexivity.
Qed.

(** Two renders are enough after any handler: more fuel changes nothing. *)
Lemma settle_enough (n : nat) (w : World) :
  Pending w -> settle (2 + n) w = settle 2 w.
Proof.
  intros H. cbn [settle Nat.add].
  destruct (resumeGuard (snapshot w)) eqn:Hg.
  - destruct (commit_resume w H Hg) as [H1 Hg1].
    destruct (stable (commit w)); [reflexivity|].
    rewrite (Inv_stable _ (commit_quiet _ H1 Hg1)). reflexivity.
  - rewrite (Inv_stable _ (commit_quiet _ H Hg)). reflexivity.
Qed.

(** The extra cycle of strict mode changes nothing. *)
Lemma strictMount_mount (w : World) : strictMount w = mount w.
Proof. destruct w as [[] ? ? ? ? ? ? ? ? ? ?]. crunch; reflexivity. Qed.

Lemma scheduled_single (ci : option positive)
    (ts : list (positive * TimerCallback)) :
  scheduled ci ts -> List.length ts <= 1.
Proof.
  destruct ci as [i|]; cbn; [intros [cb ->] | intros ->]; cbn; lia.
Qed.

(** Neither within an event, after the handler or between two renders, are
    two intervals scheduled. *)
Lemma never_two_intervals (es : list Event) (e : Event) :
  let w := handle e (run es initial) in
  List.length (timers w) <= 1 /\ List.length (timers (commit w)) <= 1.
Proof.
  intros w.
  assert (H : Pending w) by apply handle_Pending, run_Inv, initial_Inv.
  split; [apply (scheduled_single _ _ (pen_timers w H))|].
  destruct (resumeGuard (snapshot w)) eqn:Hg.
  - destruct (commit_resume w H Hg) as [H1 _].
    apply (scheduled_single _ _ (pen_timers _ H1)).
  - apply (scheduled_single _ _ (inv_timers _ (commit_quiet w H Hg))).
Qed.

(** An event whose handler does nothing does nothing. *)
Lemma step_noop (e : Event) (w : World) :
  Inv w -> handle e w = w -> step e w = w.
Proof. intros H E. unfold step. rewrite E. apply settle_Inv_id, H. Qed.

Lemma stop_inactive (w : World) :
  Inv w -> App.isCapturing (app w) = false -> handle Stop w = w.
Proof. intros H E. inv_shape w H; try discriminate E; reflexivity. Qed.

Lemma start_active (w : World) :
  Inv w -> App.isCapturing (app w) = true -> handle Start w = w.
Proof. intros H E. inv_shape w H; try discriminate E; reflexivity. Qed.

Lemma stopped_inactive (w : World) :
  Inv w -> App.isCapturing (app (step Stop w)) = false.
Proof.
  intros H. pose proof (handle_Pending Stop w H) as HP.
  unfold step. rewrite settle_quiet; [ | exact HP | ].
  - clear HP. inv_shape w H; crunch; reflexivity.
  - clear HP. inv_shape w H; crunch; reflexivity.
Qed.

Lemma started_active (w : World) :
  Inv w -> App.isCapturing (app (step Start w)) = true.
Proof.
  intros H. pose proof (handle_Pending Start w H) as HP.
  unfold step. rewrite settle_quiet; [ | exact HP | ].
  - clear HP. inv_shape w H; crunch; reflexivity.
  - clear HP. inv_shape w H; crunch; reflexivity.
Qed.

(** Starting twice is starting once. *)
Lemma start_idempotent (es : list Event) :
  let w := run es initial in
  step Start (step Start w) = step Start w.
Proof.
  intros w. assert (H : Inv w) by apply run_Inv, initial_Inv.
  apply step_noop; [apply step_Inv, H|].
  apply start_active; [apply step_Inv, H | apply started_active, H].
Qed.

(** In no reachable state does [startCapturing] get to its first capture:
    the ref still holds [false] when [captureAndRecognize] reads it. *)
Lemma start_skips_first_capture (es : list Event) :
  let w := run es initial in
  App.isCapturing (app w) = false ->
  trace (step Start w)
  = trace w ++ [OnStartCapture; SetInterval (nextTimer w) 3000]
  /\ inflight (step Start w) = inflight w.
Proof.
  intros w E. assert (H : Inv w) by apply run_Inv, initial_Inv.
  clearbody w. pose proof (handle_Pending Start w H) as HP.
  unfold step. rewrite settle_quiet; [ | exact HP | ]; clear HP.
  - inv_shape w H; try discriminate E; crunch;
      rewrite <- ?app_assoc; split; reflexivity.
  - inv_shape w H; try discriminate E; crunch; reflexivity.
Qed.

Lemma count_app (p : Effect -> bool) (l l' : list Effect) :
  count p (l ++ l') = count p l + count p l'.
Proof. unfold count. rewrite filter_app, length_app. reflexivity. Qed.

(** An event whose handler leaves the loop alone needs no render. *)
Lemma step_core_id (e : Event) (w : World) :
  Inv w -> core (handle e w) = core w -> step e w = handle e w.
Proof.
  intros H E. unfold step. apply settle_Inv_id. apply (Inv_core w); assumption.
Qed.

Lemma tick_core (id : positive) (w : World) : core (tick id w) = core w.
Proof.
  unfold tick. destruct (find _ (timers w)) as [[i cb]|]; [|reflexivity].
  destruct cb; cbn [fire]; [apply captureAndRecognize_core|].
  destruct (isCapturingRef w); [apply captureAndRecognize_core | reflexivity].
Qed.

Lemma respond_core (k : nat) (o : AxiosOutcome) (w : World) :
  core (respond k o w) = core w.
Proof.
  unfold respond. destruct (existsb _ _); [|reflexivity].
  destruct (processResponse o); reflexivity.
Qed.

Lemma step_Tick (id : positive) (w : World) :
  Inv w -> step (Tick id) w = tick id w.
Proof. intros H. apply step_core_id; [exact H | apply tick_core]. Qed.

Lemma step_Response (k : nat) (o : AxiosOutcome) (w : World) :
  Inv w -> step (Response k o) w = respond k o w.
Proof. intros H. apply step_core_id; [exact H | apply respond_core]. Qed.

(** A firing of the interval held in the state cell runs
    [captureAndRecognize], whichever callback it was scheduled with, and
    leaves it scheduled. *)
Lemma tick_scheduled (id : positive) (w : World) :
  Inv w -> captureInterval w = Some id ->
  handle (Tick id) w = captureAndRecognize w /\
  trace (step (Tick id) w) = trace w ++ attempt w /\
  timers (step (Tick id) w) = timers w /\
  captureInterval (step (Tick id) w) = Some id.
Proof.
  intros H Hi. rewrite (step_Tick id w H).
  inv_shape w H; try discriminate Hi.
  cbn in Hi. injection Hi as <-.
  unfold attempt, currentFrame.
  destruct frame as [image|]; [destruct (String.eqb image "") eqn:Ei|];
    destruct cb; simp; rewrite ?Ei; cbn;
    rewrite <- ?app_assoc; repeat split; reflexivity.
Qed.

Lemma attempt_acquires (w : World) : count isAcquisition (attempt w) = 1.
Proof.
  unfold attempt. destruct (currentFrame w) as [image|]; [|reflexivity].
  destruct (String.eqb image ""); reflexivity.
Qed.

(** So it goes on: [n] firings are [n] acquisitions. *)
Lemma ticks_recur (id : positive) (n : nat) :
  forall w, Inv w -> captureInterval w = Some id ->
  timers (run (repeat (Tick id) n) w) = timers w /\
  count isAcquisition (trace (run (repeat (Tick id) n) w))
  = count isAcquisition (trace w) + n.
Proof.
  induction n as [|n IH]; intros w H Hi; [cbn; split; [reflexivity | lia]|].
  cbn [repeat run fold_left].
  destruct (tick_scheduled id w H Hi) as (_ & Ht & Hs & Hc).
  destruct (IH (step (Tick id) w) (step_Inv _ _ H) Hc) as [IH1 IH2].
  unfold run in IH1, IH2. rewrite IH1, IH2, Hs, Ht, count_app, attempt_acquires.
  split; [reflexivity | lia].
Qed.

(** ** The claims *)

(** C1. In every state the page can reach, an active session has at most
    one scheduled recurring capture action: no sequence of start, stop,
    toggle, remount, tick or other events schedules two at once. *)
Theorem single_recurring_action (es : list Event) :
  let w := run es initial in
  App.isCapturing (app w) = true -> List.length (timers w) <= 1.
Proof.
  intros w _. assert (H : Inv w) by apply run_Inv, initial_Inv.
  apply (scheduled_single _ _ (inv_timers w H)).
Qed.

Lemma single_recurring_action_witness :
  App.isCapturing (app (run resumedRun initial)) = true /\
  List.length (timers (run resumedRun initial)) <= 1.
Proof.
  split; [reflexivity|].
  apply (single_recurring_action resumedRun). reflexivity.
Defined.

(** C2. Two calls of [startCapturing] in a row leave the page as one call
    does, with one interval scheduled and one start notification; the
    immediate acquisition takes place in neither. *)
Theorem start_twice_no_acquisition :
  let w1 := step Start ready in
  let w2 := step Start w1 in
  w2 = w1 /\
  timers w2 = [(1%positive, Direct)] /\
  count isStartNotice (trace w2) = 1 /\
  count isAcquisition (trace w2) = 0 /\
  count isRequest (trace w2) = 0.
Proof. vm_compute. repeat split; reflexivity. Qed.

(** C3. On a page whose camera is ready and delivers frames, a click on the
    button notifies the start once and schedules the interval, but the
    capture that [startCapturing] triggers right away reads
    [isCapturingRef.current], still [false], and returns: no frame is
    acquired and no request is sent before the interval fires. *)
Theorem toggle_issues_no_recognition :
  let w := step Toggle ready in
  isCameraReady ready = true /\
  App.isCapturing (app ready) = false /\
  currentFrame ready = Some frame0 /\
  trace w = trace ready ++ [OnStartCapture; SetInterval 1 3000] /\
  count isAcquisition (trace w) = 0 /\
  count isRequest (trace w) = 0 /\
  inflight w = [] /\
  trace (step (Tick 1) w) =
  trace w ++ [GetScreenshot; OnRecognitionStart;
              AxiosPost 0 RECOGNITION_API_URL frame0].
Proof. vm_compute. repeat split; reflexivity. Qed.

(** C4. A session that finds the active flag set and no interval in its
    state cell sets the interval up as soon as the camera is ready, and
    runs [captureAndRecognize] past its guards once, at once; no
    [startCapturing] is involved.  The interval set up is a capture
    action that recurs: each of its firings runs [captureAndRecognize],
    an acquisition every time, and leaves it scheduled. *)
Theorem resume_on_create (es : list Event) :
  let w := run es initial in
  App.isCapturing (app w) = true ->
  captureInterval w = None ->
  let w' := step WebcamInit w in
  timers w = [] /\
  timers w' = [(nextTimer w, Guarded)] /\
  captureInterval w' = Some (nextTimer w) /\
  trace w' = trace w ++ SetInterval (nextTimer w) 3000 :: attempt w /\
  handle (Tick (nextTimer w)) w' = captureAndRecognize w' /\
  trace (step (Tick (nextTimer w)) w') = trace w' ++ attempt w' /\
  timers (step (Tick (nextTimer w)) w') = timers w' /\
  forall n,
    timers (run (repeat (Tick (nextTimer w)) n) w') = timers w' /\
    count isAcquisition (trace (run (repeat (Tick (nextTimer w)) n) w'))
    = count isAcquisition (trace w') + n.
Proof.
  intros w Hc Hi w'. assert (H : Inv w) by apply run_Inv, initial_Inv.
  assert (H' : Inv w') by apply step_Inv, H.
  cut (timers w = [] /\
       timers w' = [(nextTimer w, Guarded)] /\
       captureInterval w' = Some (nextTimer w) /\
       trace w' = trace w ++ SetInterval (nextTimer w) 3000 :: attempt w).
  { intros (C1 & C2 & C3 & C4).
    destruct (tick_scheduled (nextTimer w) w' H' C3) as (T1 & T2 & T3 & _).
    repeat (split; [assumption|]).
    intros n. apply ticks_recur; assumption. }
  clear H'. subst w'. clearbody w.
  pose proof (handle_Pending WebcamInit w H) as HP.
  unfold step. rewrite settle_resume; [ | exact HP | ]; clear HP.
  - inv_shape w H; try discriminate. cbn [handle].
    destruct frame as [image|]; [destruct (String.eqb image "") eqn:Ei|].
    all: match goal with
         | |- context [commit (commit ?x)] =>
             eassert (E1 : commit x = _);
             [ unfold_model; rewrite ?Ei; cbn; reflexivity
             | rewrite E1; clear E1 ]
         end.
    all: unfold attempt; simp; rewrite ?Ei;
         rewrite <- ?app_assoc; repeat split; reflexivity.
  - inv_shape w H; try discriminate. reflexivity.
Qed.

Lemma resume_on_create_witness :
  App.isCapturing (app (run remountedRun initial)) = true /\
  captureInterval (run remountedRun initial) = None /\
  trace (step WebcamInit (run remountedRun initial)) =
  trace (run remountedRun initial) ++
  [SetInterval 2 3000; GetScreenshot; OnRecognitionStart;
   AxiosPost 0 RECOGNITION_API_URL frame0].
Proof.
  split; [reflexivity|]. split; [reflexivity|].
  destruct (resume_on_create remountedRun eq_refl eq_refl)
    as (_ & _ & _ & Ht & _).
  rewrite Ht. reflexivity.
Defined.

(** C5. The presenter gives a detection the high class exactly when its
    confidence is at least 0.8, the medium class exactly when it is at
    least 0.5 and below 0.8, and the low class exactly when it is below
    0.5; 0.8 is high, 0.79999 and 0.5 are medium, 0.49999 is low.  The
    confidence is a number: a comparison with NaN is false either way. *)
Theorem confidence_tiers :
  (getConfidenceColor 0.8 = "high-confidence" /\
   getConfidenceColor 0.79999 = "medium-confidence" /\
   getConfidenceColor 0.5 = "medium-confidence" /\
   getConfidenceColor 0.49999 = "low-confidence") /\
  forall obj : Detection,
    PrimFloat.is_nan (confidence obj) = false ->
    (itemClass obj = "high-confidence" <->
       Js.ge (confidence obj) 0.8 = true) /\
    (itemClass obj = "medium-confidence" <->
       Js.ge (confidence obj) 0.5 = true /\
       Js.lt (confidence obj) 0.8 = true) /\
    (itemClass obj = "low-confidence" <->
       Js.lt (confidence obj) 0.5 = true).
Proof.
  split; [repeat split; vm_compute; reflexivity|].
  intros [n c] Hc. unfold itemClass, getConfidenceColor. cbn [confidence] in *.
  assert (H8 := ge_false_lt c 0.8 Hc eq_refl).
  assert (H5 := ge_false_lt c 0.5 Hc eq_refl).
  assert (Hmono := ge_08_05 c).
  destruct (Js.ge c 0.8), (Js.ge c 0.5), (Js.lt c 0.8), (Js.lt c 0.5);
    try discriminate; try (specialize (Hmono eq_refl); discriminate);
    repeat split; intros; try discriminate; try reflexivity;
    try (destruct H; discriminate).
Qed.

Lemma confidence_tiers_witness :
  PrimFloat.is_nan (confidence cat) = false /\
  itemClass cat = "high-confidence".
Proof.
  split; [reflexivity|].
  destruct confidence_tiers as [_ H].
  destruct (H cat eq_refl) as (Hhigh & _ & _).
  apply Hhigh. reflexivity.
Defined.

(** C6. A body whose [objects] is the string "cat" holds no detection
    list, yet the client does not fail: it hands "cat" to the success
    callback, which is written for an array, no error is reported, the
    string is stored and the presenter, given it, throws.  A body with the
    wrong field name takes the other path and fails as the claim says. *)
Theorem nonlist_objects_reach_presenter :
  let w := run polledRun initial in
  let w' := respond 0 (Resolved catBody) w in
  hasObjectsList catBody = false /\
  existsb (Nat.eqb 0) (inflight w) = true /\
  processResponse (Resolved catBody) = Recognized (Js.Str "cat") /\
  trace w' = trace w ++ [OnObjectsRecognized (Js.Str "cat")] /\
  count isErrorNotice (trace w') = count isErrorNotice (trace w) /\
  App.recognizedObjects (app w') = Js.Str "cat" /\
  App.resultsView (app w') = App.Presenter (Js.Str "cat") /\
  presenterBranch (Js.Str "cat") = TypeError /\
  processResponse (Resolved wrongField) = Failed invalidResponse.
Proof. vm_compute. repeat split; reflexivity. Qed.

(** The test of the client is not a test of the shape. *)
Lemma objects_string_is_forwarded :
  ~ (forall data : Js.Value,
       hasObjectsList data = false ->
       processResponse (Resolved data) = Failed invalidResponse).
Proof.
  intros H.
  specialize (H (Js.Obj [("objects", Js.Str "cat")]) eq_refl).
  discriminate H.
Qed.

(** What the test [response.data && response.data.objects] lets through: a
    body whose [objects] property is missing or falsy (any body that is
    not an object included) fails with the invalid-response error, which
    reaches [onError] and nothing else; a body whose [objects] is truthy
    has that value handed to [onObjectsRecognized], a list or not. *)
Lemma response_handling :
  (forall data w,
     Js.truthy (Js.objects data) = false ->
     processResponse (Resolved data) = Failed invalidResponse /\
     trace (complete (processResponse (Resolved data)) w) =
     trace w ++ [OnError invalidResponse]) /\
  (forall data w,
     Js.truthy (Js.objects data) = true ->
     processResponse (Resolved data) = Recognized (Js.objects data) /\
     trace (complete (processResponse (Resolved data)) w) =
     trace w ++ [OnObjectsRecognized (Js.objects data)] /\
     App.recognizedObjects (app (complete (processResponse (Resolved data)) w))
     = Js.objects data) /\
  (forall data,
     hasObjectsList data = true -> Js.truthy (Js.objects data) = true) /\
  (forall fields,
     Js.lookup "objects" fields = Js.Undefined ->
     Js.truthy (Js.objects (Js.Obj fields)) = false).
Proof.
  assert (Hcond : forall data,
            Js.truthy data && Js.truthy (Js.objects data)
            = Js.truthy (Js.objects data)).
  { intros data. destruct data; cbn [Js.objects Js.truthy];
      rewrite ?andb_false_r; reflexivity. }
  repeat split.
  - unfold processResponse. rewrite Hcond, H. reflexivity.
  - unfold processResponse. rewrite Hcond, H. reflexivity.
  - unfold processResponse. rewrite Hcond, H. reflexivity.
  - unfold processResponse. rewrite Hcond, H. reflexivity.
  - unfold processResponse. rewrite Hcond, H. reflexivity.
  - intros data H. destruct data; try discriminate H. cbn in *.
    destruct (Js.lookup "objects" fields); try discriminate H. reflexivity.
  - intros fields H. cbn. rewrite H. reflexivity.
Qed.

Lemma response_handling_witness :
  Js.truthy (Js.objects wrongField) = false /\
  processResponse (Resolved wrongField) = Failed invalidResponse /\
  hasObjectsList emptyList = true /\
  processResponse (Resolved emptyList) = Recognized (Js.Arr []).
Proof.
  destruct response_handling as (Hbad & Hgood & Hlist & _).
  split; [reflexivity|].
  split; [apply (Hbad wrongField blank eq_refl)|].
  split; [reflexivity|].
  apply (Hgood emptyList blank). apply Hlist. reflexivity.
Defined.

(** C7, as stated, fails: on a page with the camera ready and a session
    started by a click, stopping twice calls [clearInterval] twice, in
    [stopCapturing] and in the clean-up of the interval effect. *)
Lemma stop_clears_twice :
  ~ (count isClear (trace (run [Stop; Stop] (run [Toggle] ready)))
     <= count isClear (trace (run [Toggle] ready)) + 1).
Proof. vm_compute. lia. Qed.

(** C7, amended. Stopping a session that is not active does nothing, so
    stopping twice is stopping once: the second call changes nothing at
    all and logs nothing, no error is reported, the coordinator is told of
    the stop at most once and [stopCapturing] clears at most once.  When
    it does, the clean-up of the interval effect clears the same handle
    once more in the render that follows, to no effect: every clear names
    the one interval that was scheduled, and none is scheduled
    afterwards. *)
Theorem stop_idempotent (es : list Event) :
  let w := run es initial in
  let w1 := step Stop w in
  step Stop w1 = w1 /\
  handle Stop w1 = w1 /\
  timers w1 = [] /\
  exists byHandler byCleanup,
    trace (handle Stop w) = trace w ++ byHandler /\
    trace w1 = trace w ++ byHandler ++ byCleanup /\
    count isStopNotice (byHandler ++ byCleanup) <= 1 /\
    count isErrorNotice (byHandler ++ byCleanup) = 0 /\
    count isClear byHandler <= 1 /\
    byCleanup = filter isClear byHandler /\
    count isClear (byHandler ++ byCleanup) = 2 * count isClear byHandler /\
    trace (step Stop w1) = trace w1 /\
    forall id, In (ClearInterval id) (byHandler ++ byCleanup) ->
               captureInterval w = Some id.
Proof.
  intros w w1. assert (H : Inv w) by apply run_Inv, initial_Inv.
  assert (H1 : Inv w1) by apply step_Inv, H.
  assert (E1 : handle Stop w1 = w1).
  { apply stop_inactive; [exact H1 | apply stopped_inactive, H]. }
  assert (E2 : step Stop w1 = w1) by (apply step_noop; assumption).
  split; [exact E2|].
  split; [exact E1|].
  rewrite E2.
  clear H1 E1 E2. subst w1. clearbody w.
  pose proof (handle_Pending Stop w H) as HP.
  unfold step. rewrite settle_quiet; [ | exact HP | ]; clear HP.
  - inv_shape w H; crunch.
    + split; [reflexivity|].
      exists [OnStopCapture; ClearInterval i], [ClearInterval i].
      rewrite <- !app_assoc. cbn. repeat split; try reflexivity; try lia.
      intros id [E|[E|[E|[]]]]; congruence.
    + split; [reflexivity|].
      exists [OnStopCapture], []. rewrite <- ?app_assoc. cbn.
      repeat split; try reflexivity; try lia.
      intros id [E|[]]; discriminate E.
    + split; [reflexivity|].
      exists [], []. rewrite ?app_nil_r. cbn.
      repeat split; try reflexivity; try lia.
  - inv_shape w H; crunch; reflexivity.
Qed.

(** C8. A recognition that ends in an error reports it once and leaves
    the loop as it was: the scheduled interval, the state cell that holds
    it, the active flag and the ref are unchanged, so the next tick of the
    interval runs [captureAndRecognize] again. *)
Theorem failure_keeps_polling (es : list Event) (k : nat) (o : AxiosOutcome)
    (err : Error) :
  let w := run es initial in
  existsb (Nat.eqb k) (inflight w) = true ->
  processResponse o = Failed err ->
  let w' := step (Response k o) w in
  trace w' = trace w ++ [OnError err] /\
  timers w' = timers w /\
  captureInterval w' = captureInterval w /\
  App.isCapturing (app w') = App.isCapturing (app w) /\
  isCapturingRef w' = isCapturingRef w /\
  forall id cb,
    In (id, cb) (timers w') -> App.isCapturing (app w') = true ->
    handle (Tick id) w' = captureAndRecognize w'.
Proof.
  intros w Hk Ho w'. assert (H : Inv w) by apply run_Inv, initial_Inv.
  assert (E : w' = onError err
                (set_inflight (filter (fun j => negb (Nat.eqb j k)) (inflight w))
                              (nextRequest w) w)).
  { subst w'. unfold step. cbn [handle]. unfold respond.
    rewrite Hk, Ho. cbn [complete].
    apply settle_Inv_id. apply (Inv_core w); [reflexivity | exact H]. }
  rewrite E. clear E w'. clearbody w.
  repeat split; try reflexivity.
  intros id cb Hin Hcap.
  inv_shape w H; crunch; try contradiction; try discriminate.
  all: destruct Hin as [Hin|[]]; inversion Hin; subst;
       simp; try congruence; reflexivity.
Qed.

Lemma failure_keeps_polling_witness :
  existsb (Nat.eqb 0) (inflight (run polledRun initial)) = true /\
  processResponse (Rejected networkError) = Failed networkError /\
  timers (step (Response 0 (Rejected networkError)) (run polledRun initial))
  = [(1%positive, Direct)].
Proof.
  split; [reflexivity|]. split; [reflexivity|].
  destruct (failure_keeps_polling polledRun 0 (Rejected networkError)
              networkError eq_refl eq_refl) as (_ & Ht & _).
  rewrite Ht. reflexivity.
Defined.

(** C9. A failed recognition leaves the stored detection list as it was:
    [handleError] writes the error message and clears the in-progress flag
    only, so the presenter is shown the last list that was recognized. *)
Theorem failure_keeps_detections (es : list Event) (k : nat)
    (o : AxiosOutcome) (err : Error) :
  let w := run es initial in
  existsb (Nat.eqb k) (inflight w) = true ->
  processResponse o = Failed err ->
  let w' := step (Response k o) w in
  app w' = App.handleError err (app w) /\
  App.recognizedObjects (app w') = App.recognizedObjects (app w) /\
  App.isCapturing (app w') = App.isCapturing (app w) /\
  App.error (app w') = Some (message err) /\
  App.isRecognizing (app w') = false /\
  App.resultsView (app w') = App.Presenter (App.recognizedObjects (app w)).
Proof.
  intros w Hk Ho w'. assert (H : Inv w) by apply run_Inv, initial_Inv.
  assert (E : app w' = App.handleError err (app w)).
  { subst w'. unfold step. cbn [handle]. unfold respond.
    rewrite Hk, Ho. cbn [complete].
    rewrite settle_Inv_id; [reflexivity|].
    apply (Inv_core w); [reflexivity | exact H]. }
  rewrite E. repeat split; reflexivity.
Qed.

Lemma failure_keeps_detections_witness :
  existsb (Nat.eqb 1) (inflight (run recognizedRun initial)) = true /\
  processResponse (Resolved wrongField) = Failed invalidResponse /\
  App.resultsView
    (app (step (Response 1 (Resolved wrongField)) (run recognizedRun initial)))
  = App.Presenter catList.
Proof.
  split; [reflexivity|]. split; [reflexivity|].
  destruct (failure_keeps_detections recognizedRun 1 (Resolved wrongField)
              invalidResponse eq_refl eq_refl) as (_ & _ & _ & _ & _ & Hv).
  rewrite Hv. reflexivity.
Defined.

(** C10. Without a webcam handle [captureAndRecognize] returns at once,
    whatever the active flag: no callback of the coordinator is invoked, no
    request is sent, nothing changes. *)
Theorem no_webcam_no_callback (w : World) (active : bool) :
  webcamRef w = None ->
  let w0 := set_isCapturingRef active w in
  captureAndRecognize w0 = w0 /\
  trace (captureAndRecognize w0) = trace w /\
  app (captureAndRecognize w0) = app w /\
  inflight (captureAndRecognize w0) = inflight w.
Proof.
  intros Hw w0.
  assert (E : captureAndRecognize w0 = w0).
  { unfold captureAndRecognize, w0. cbn [webcamRef set_isCapturingRef].
    rewrite Hw. reflexivity. }
  rewrite E. repeat split; reflexivity.
Qed.

Lemma no_webcam_no_callback_witness :
  webcamRef blank = None /\
  trace (captureAndRecognize (set_isCapturingRef true blank)) = [].
Proof.
  split; [reflexivity|].
  destruct (no_webcam_no_callback blank true eq_refl) as (_ & Ht & _).
  exact Ht.
Defined.

(** ** Further properties *)

(** Replaces the innermost [step e w], [w] an explicit world between two
    events, by the world it computes when one render is enough. *)
Ltac eval_quiet :=
  match goal with
  | |- context [step ?e ?w] =>
      lazymatch w with context [step _ _] => fail | _ => idtac end;
      let E := fresh "E" in
      eassert (E : step e w = _);
      [ unfold step; rewrite settle_quiet;
        [ simp; reflexivity
        | apply handle_Pending; rec_done
        | simp; reflexivity ]
      | rewrite E; clear E ]
  end.

(** X1. A click while the camera is not ready changes nothing and calls
    nothing. *)
Theorem toggle_ignored_until_camera_ready (es : list Event) :
  let w := run es initial in
  isCameraReady w = false -> step Toggle w = w.
Proof.
  intros w Hr. assert (H : Inv w) by apply run_Inv, initial_Inv.
  apply step_noop; [exact H|].
  clearbody w. inv_shape w H; cbn in Hr; subst; reflexivity.
Qed.

Lemma toggle_ignored_until_camera_ready_witness :
  isCameraReady (run [Start; Remount] initial) = false /\
  step Toggle (run [Start; Remount] initial) = run [Start; Remount] initial.
Proof.
  split; [reflexivity|].
  apply (toggle_ignored_until_camera_ready [Start; Remount]). reflexivity.
Defined.

Lemma toggle_ready (w : World) :
  Inv w -> isCameraReady w = true ->
  step Toggle w = if App.isCapturing (app w) then step Stop w else step Start w.
Proof.
  intros H Hr. unfold step.
  assert (E : handle Toggle w
              = if App.isCapturing (app w) then handle Stop w
                else handle Start w).
  { inv_shape w H; cbn in Hr; subst; try discriminate; reflexivity. }
  rewrite E. destruct (App.isCapturing (app w)); reflexivity.
Qed.

(** X2. With the camera ready a click stops an active session and starts
    an idle one: the handler always sees the current flag. *)
Theorem toggle_acts_on_current_flag (es : list Event) :
  let w := run es initial in
  isCameraReady w = true ->
  step Toggle w = if App.isCapturing (app w) then step Stop w else step Start w.
Proof.
  intros w Hr. apply toggle_ready; [apply run_Inv, initial_Inv | exact Hr].
Qed.

Lemma toggle_acts_on_current_flag_witness :
  isCameraReady (run [WebcamInit] initial) = true /\
  trace (step Toggle (run [WebcamInit] initial))
  = [OnStartCapture; SetInterval 1 3000].
Proof.
  split; [reflexivity|].
  rewrite (toggle_acts_on_current_flag [WebcamInit] eq_refl).
  vm_compute. reflexivity.
Defined.

(** X3. Starting and then stopping an idle session leaves the page as it
    was, except that one handle is used up and the trace tells what
    happened: no interval is left behind. *)
Theorem start_stop_round_trip (es : list Event) :
  let w := run es initial in
  App.isCapturing (app w) = false ->
  run [Start; Stop] w =
  fold_left (fun w e => log e w)
    [OnStartCapture; SetInterval (nextTimer w) 3000; OnStopCapture;
     ClearInterval (nextTimer w); ClearInterval (nextTimer w)]
    (set_timers [] (Pos.succ (nextTimer w)) w).
Proof.
  intros w Hc. assert (H : Inv w) by apply run_Inv, initial_Inv.
  clearbody w. cbn [run fold_left].
  inv_shape w H; try discriminate Hc.
  eval_quiet. eval_quiet. simp. rewrite <- !app_assoc. reflexivity.
Qed.

Lemma start_stop_round_trip_witness :
  App.isCapturing (app (run [WebcamInit] initial)) = false /\
  timers (run [Start; Stop] (run [WebcamInit] initial)) = [].
Proof.
  split; [reflexivity|].
  rewrite (start_stop_round_trip [WebcamInit] eq_refl).
  vm_compute. reflexivity.
Defined.

Lemma inactive_no_timers (w : World) :
  Inv w -> App.isCapturing (app w) = false ->
  captureInterval w = None /\ timers w = [].
Proof.
  intros H Hc. inv_shape w H; try discriminate Hc; split; reflexivity.
Qed.

Lemma step_Stop_inflight (w : World) :
  Inv w -> inflight (step Stop w) = inflight w.
Proof.
  intros H. inv_shape w H; eval_quiet; reflexivity.
Qed.

Lemma existsb_filter_other (k k' : nat) (l : list nat) :
  k <> k' -> existsb (Nat.eqb k) l = true ->
  existsb (Nat.eqb k) (filter (fun j => negb (Nat.eqb j k')) l) = true.
Proof.
  intros Hk. induction l as [|j l IH]; cbn; [discriminate|].
  destruct (Nat.eqb_spec k j) as [<-|Hj]; cbn.
  - destruct (Nat.eqb_spec k k') as [E|_]; [contradiction|].
    cbn. rewrite Nat.eqb_refl. reflexivity.
  - intros Hl. destruct (negb (Nat.eqb j k')); cbn; [|exact (IH Hl)].
    destruct (Nat.eqb_spec k j); [contradiction | exact (IH Hl)].
Qed.

(** X4. A camera error whose tests run through reports the one generic
    message, marks the camera as not ready and leaves the loop as it is: a
    running interval keeps running, and the button does nothing until the
    camera is initialised again.  An error without a message, unless its
    name is NotAllowedError, makes the handler throw before that: nothing
    changes, the camera stays marked as it was and no error is shown. *)
Theorem camera_error_disables_toggle (es : list Event) (error : MediaError) :
  let w := run es initial in
  (classifyWebcamError error = None -> step (WebcamError error) w = w) /\
  (classifyWebcamError error <> None ->
   let w' := step (WebcamError error) w in
   isCameraReady w' = false /\
   trace w' = trace w ++ [OnError webcamError] /\
   App.error (app w') = Some (message webcamError) /\
   timers w' = timers w /\
   captureInterval w' = captureInterval w /\
   App.isCapturing (app w') = App.isCapturing (app w) /\
   step Toggle w' = w').
Proof.
  intros w. assert (H : Inv w) by apply run_Inv, initial_Inv.
  clearbody w. split.
  - intros E. apply step_noop; [exact H|].
    cbn [handle]. unfold handleWebcamError. rewrite E. reflexivity.
  - intros E w'. subst w'.
    assert (Es : step (WebcamError error) w
                 = commit (onError webcamError (setIsCameraReady false w))).
    { pose proof (handle_Pending (WebcamError error) w H) as HP.
      unfold step. cbn [handle] in *. unfold handleWebcamError in *.
      destruct (classifyWebcamError error) as [c|]; [|contradiction].
      apply settle_quiet; [exact HP|].
      clear HP. inv_shape w H; simp; reflexivity. }
    rewrite Es. clear Es E.
    inv_shape w H;
      match goal with
      | |- context [commit ?x] =>
          eassert (E1 : commit x = _);
          [ simp; reflexivity | rewrite E1; clear E1 ]
      end;
      repeat split; try reflexivity; eval_quiet; reflexivity.
Qed.

Lemma camera_error_disables_toggle_witness :
  classifyWebcamError
    {| errorName := Some "NotReadableError"; errorMessage := None |} = None /\
  classifyWebcamError
    {| errorName := Some "NotFoundError";
       errorMessage := Some "Requested device not found" |}
  = Some NoCameraFound /\
  isCameraReady
    (step (WebcamError {| errorName := Some "NotReadableError";
                          errorMessage := None |})
          (run [WebcamInit] initial)) = true /\
  isCameraReady
    (step (WebcamError {| errorName := Some "NotFoundError";
                          errorMessage := Some "Requested device not found" |})
          (run [WebcamInit] initial)) = false.
Proof.
  split; [reflexivity|]. split; [reflexivity|].
  destruct (camera_error_disables_toggle [WebcamInit]
              {| errorName := Some "NotReadableError"; errorMessage := None |})
    as [Hthrow _].
  destruct (camera_error_disables_toggle [WebcamInit]
              {| errorName := Some "NotFoundError";
                 errorMessage := Some "Requested device not found" |})
    as [_ Hok].
  split.
  - rewrite (Hthrow eq_refl). reflexivity.
  - apply (Hok ltac:(discriminate)).
Defined.

(** X5. The camera becoming ready starts nothing by itself: unless the
    session is active and has no interval, only the ready flag changes. *)
Theorem camera_ready_starts_nothing (es : list Event) :
  let w := run es initial in
  App.isCapturing (app w) = false \/ captureInterval w <> None ->
  let w' := step WebcamInit w in
  isCameraReady w' = true /\
  trace w' = trace w /\
  timers w' = timers w /\
  captureInterval w' = captureInterval w /\
  app w' = app w /\
  inflight w' = inflight w.
Proof.
  intros w Hc w'. assert (H : Inv w) by apply run_Inv, initial_Inv.
  subst w'. clearbody w.
  inv_shape w H; cbn in Hc;
    try (destruct Hc as [Hc|Hc]; [discriminate Hc | exfalso; apply Hc; reflexivity]);
    eval_quiet; repeat split; reflexivity.
Qed.

Lemma camera_ready_starts_nothing_witness :
  (App.isCapturing (app initial) = false \/ captureInterval initial <> None) /\
  trace (step WebcamInit initial) = [].
Proof.
  split; [left; reflexivity|].
  destruct (camera_ready_starts_nothing [] (or_introl eq_refl))
    as (_ & Ht & _).
  exact Ht.
Defined.



(** X7. A capture that gets no frame from the camera ends there: whatever
    interval fires, the coordinator is told nothing, no error is shown and
    no request is sent. *)
Theorem tick_without_frame_is_silent (es : list Event) (id : positive) :
  let w := run es initial in
  Js.truthy_string (currentFrame w) = false ->
  let w' := step (Tick id) w in
  app w' = app w /\
  inflight w' = inflight w /\
  (trace w' = trace w \/ trace w' = trace w ++ [GetScreenshot]).
Proof.
  intros w Hf w'. assert (H : Inv w) by apply run_Inv, initial_Inv.
  subst w'. rewrite (step_Tick id w H). clearbody w.
  inv_shape w H; cbn in Hf; unfold tick; cbn [timers find fst];
    try (destruct (Pos.eqb i id)); try destruct cb; simp; rewrite ?Hf; cbn;
    repeat split; auto.
Qed.

Lemma tick_without_frame_is_silent_witness :
  Js.truthy_string (currentFrame (run [Start] initial)) = false /\
  app (step (Tick 1) (run [Start] initial)) = app (run [Start] initial).
Proof.
  split; [reflexivity|].
  destruct (tick_without_frame_is_silent [Start] 1 eq_refl) as (Ha & _).
  exact Ha.
Defined.


(** X9. Captures are not serialized: an interval that fires again before
    the first request has settled sends a second request, and both are
    awaited. *)
Theorem overlapping_requests (es : list Event) (id : positive) :
  let w := run es initial in
  captureInterval w = Some id ->
  Js.truthy_string (currentFrame w) = true ->
  let w' := run [Tick id; Tick id] w in
  inflight w' = inflight w ++ [nextRequest w; S (nextRequest w)] /\
  count isRequest (trace w') = count isRequest (trace w) + 2.
Proof.
  intros w Hi Hf w'. assert (H : Inv w) by apply run_Inv, initial_Inv.
  subst w'. cbn [run fold_left].
  rewrite (step_Tick id _ (step_Inv _ _ H)), (step_Tick id w H).
  clearbody w. inv_shape w H; try discriminate Hi.
  cbn in Hi. injection Hi as <-. cbn in Hf.
  destruct frame as [image|]; [|discriminate Hf].
  destruct cb; simp; rewrite ?Hf; simp; rewrite ?Hf; cbn;
    rewrite <- !app_assoc; split; try reflexivity;
    unfold count; rewrite !filter_app, !length_app; cbn; lia.
Qed.

Lemma overlapping_requests_witness :
  captureInterval (run polledRun initial) = Some 1%positive /\
  Js.truthy_string (currentFrame (run polledRun initial)) = true /\
  inflight (run [Tick 1; Tick 1] (run polledRun initial)) = [0; 1; 2].
Proof.
  split; [reflexivity|]. split; [reflexivity|].
  destruct (overlapping_requests polledRun 1 eq_refl eq_refl) as (Hi & _).
  rewrite Hi. reflexivity.
Defined.

Lemma respond_success (k : nat) (data : Js.Value) (w : World) :
  existsb (Nat.eqb k) (inflight w) = true ->
  Js.truthy (Js.objects data) = true ->
  respond k (Resolved data) w =
  onObjectsRecognized (Js.objects data)
    (set_inflight (filter (fun j => negb (Nat.eqb j k)) (inflight w))
                  (nextRequest w) w).
Proof.
  intros Hk T. unfold respond, processResponse. rewrite Hk.
  destruct data; cbn in T; try discriminate T. cbn. rewrite T. reflexivity.
Qed.

Lemma detection_list_truthy (v : Js.Value) :
  isDetectionList v = true -> Js.truthy v = true.
Proof. destruct v; cbn; intros H; try discriminate H; reflexivity. Qed.

Lemma detection_list_branch (v : Js.Value) :
  isDetectionList v = true ->
  presenterBranch v = Placeholder
  \/ exists items, v = Js.Arr items /\ presenterBranch v = ObjectsList items.
Proof.
  destruct v as [| | | | |items|]; cbn; intros H; try discriminate H.
  destruct items as [|item items]; [left; reflexivity|].
  right. exists (item :: items). split; reflexivity.
Qed.

(** Stopping hands nothing to the success callback. *)
Lemma step_Stop_rendered (w : World) :
  Inv w -> renderedSoFar (step Stop w) = renderedSoFar w.
Proof.
  intros H. unfold renderedSoFar.
  inv_shape w H; eval_quiet; cbn [trace];
    rewrite ?forallb_app; cbn; rewrite ?andb_true_r; reflexivity.
Qed.

(** X10. On a page that has rendered so far, of two requests in flight
    that are answered with detection lists the one that settles last
    decides what is stored, whichever was sent first, and the page still
    renders. *)
Theorem last_completion_wins (es : list Event) (k1 k2 : nat)
    (d1 d2 : Js.Value) :
  let w := run es initial in
  renderedSoFar w = true ->
  k1 <> k2 ->
  existsb (Nat.eqb k1) (inflight w) = true ->
  existsb (Nat.eqb k2) (inflight w) = true ->
  isDetectionList (Js.objects d1) = true ->
  isDetectionList (Js.objects d2) = true ->
  let w12 := run [Response k1 (Resolved d1); Response k2 (Resolved d2)] w in
  let w21 := run [Response k2 (Resolved d2); Response k1 (Resolved d1)] w in
  App.recognizedObjects (app w12) = Js.objects d2 /\
  App.recognizedObjects (app w21) = Js.objects d1 /\
  renderedSoFar w12 = true /\
  renderedSoFar w21 = true.
Proof.
  intros w R Hk H1 H2 L1 L2 w12 w21.
  assert (H : Inv w) by apply run_Inv, initial_Inv.
  pose proof (detection_list_truthy _ L1) as T1.
  pose proof (detection_list_truthy _ L2) as T2.
  assert (E12 : w12 = respond k2 (Resolved d2) (respond k1 (Resolved d1) w)).
  { unfold w12. cbn [run fold_left].
    rewrite !step_Response by (try apply step_Inv; exact H). reflexivity. }
  assert (E21 : w21 = respond k1 (Resolved d1) (respond k2 (Resolved d2) w)).
  { unfold w21. cbn [run fold_left].
    rewrite !step_Response by (try apply step_Inv; exact H). reflexivity. }
  rewrite E12, E21.
  rewrite (respond_success k1 d1 w H1 T1), (respond_success k2 d2 w H2 T2).
  rewrite !respond_success; try assumption;
    try (cbn; apply existsb_filter_other; auto).
  unfold renderedSoFar in *. cbn.
  rewrite !forallb_app, R. cbn. rewrite L1, L2.
  repeat split; reflexivity.
Qed.

Lemma last_completion_wins_witness :
  existsb (Nat.eqb 0) (inflight (run [Tick 1] (run polledRun initial))) = true /\
  existsb (Nat.eqb 1) (inflight (run [Tick 1] (run polledRun initial))) = true /\
  App.recognizedObjects
    (app (run [Response 1 (Resolved emptyList);
               Response 0 (Resolved (Js.Obj [("objects", catList)]))]
              (run (polledRun ++ [Tick 1]) initial)))
  = catList.
Proof.
  split; [reflexivity|]. split; [reflexivity|].
  destruct (last_completion_wins (polledRun ++ [Tick 1]) 0 1
              (Js.Obj [("objects", catList)]) emptyList
              eq_refl ltac:(discriminate) eq_refl eq_refl eq_refl eq_refl)
    as (_ & Hr & _).
  exact Hr.
Defined.

(** X11. Stopping cancels no request: on a page that has rendered so far,
    one that is in flight when the session stops is still awaited, and the
    detection list it returns is stored and shown although the session is
    no longer active; the page still renders. *)
Theorem response_after_stop (es : list Event) (k : nat) (data : Js.Value) :
  let w := run es initial in
  renderedSoFar w = true ->
  existsb (Nat.eqb k) (inflight w) = true ->
  isDetectionList (Js.objects data) = true ->
  let w1 := step Stop w in
  let w2 := step (Response k (Resolved data)) w1 in
  inflight w1 = inflight w /\
  App.isCapturing (app w2) = false /\
  trace w2 = trace w1 ++ [OnObjectsRecognized (Js.objects data)] /\
  App.resultsView (app w2) = App.Presenter (Js.objects data) /\
  presenterBranch (Js.objects data) <> TypeError /\
  renderedSoFar w2 = true.
Proof.
  intros w R Hk L w1 w2. assert (H : Inv w) by apply run_Inv, initial_Inv.
  pose proof (detection_list_truthy _ L) as T.
  assert (B : presenterBranch (Js.objects data) <> TypeError).
  { destruct (detection_list_branch _ L) as [E|(items & _ & E)];
      rewrite E; discriminate. }
  assert (H1 : Inv w1) by apply step_Inv, H.
  assert (Hi : inflight w1 = inflight w) by apply step_Stop_inflight, H.
  assert (Hc : App.isCapturing (app w1) = false) by apply stopped_inactive, H.
  assert (R1 : renderedSoFar w1 = true).
  { unfold w1. rewrite step_Stop_rendered by exact H. exact R. }
  subst w2. clearbody w1. rewrite (step_Response _ _ w1 H1).
  rewrite respond_success by (rewrite ?Hi; assumption).
  repeat split; try assumption; try reflexivity.
  unfold renderedSoFar in *. cbn. rewrite forallb_app, R1. cbn.
  rewrite L. reflexivity.
Qed.

Lemma response_after_stop_witness :
  existsb (Nat.eqb 0) (inflight (run polledRun initial)) = true /\
  App.resultsView
    (app (step (Response 0 (Resolved (Js.Obj [("objects", catList)])))
               (step Stop (run polledRun initial))))
  = App.Presenter catList.
Proof.
  split; [reflexivity|].
  destruct (response_after_stop polledRun 0 (Js.Obj [("objects", catList)])
              eq_refl eq_refl eq_refl) as (_ & _ & _ & Hv & _ & _).
  exact Hv.
Defined.

(** X12. Tearing the component down and mounting it again cancels the
    interval and forgets the camera, but tells the coordinator nothing:
    the active flag, the stored results and the requests in flight are
    kept, and no stop is notified. *)
Theorem remount_keeps_flag (es : list Event) :
  let w := run es initial in
  let w' := step Remount w in
  app w' = app w /\
  inflight w' = inflight w /\
  timers w' = [] /\
  captureInterval w' = None /\
  isCameraReady w' = false /\
  currentFrame w' = None /\
  trace w' = trace w ++
    match captureInterval w with
    | Some interval => [ClearInterval interval]
    | None => []
    end.
Proof.
  intros w w'. assert (H : Inv w) by apply run_Inv, initial_Inv.
  subst w'. clearbody w.
  inv_shape w H; eval_quiet; rewrite ?app_nil_r; repeat split; reflexivity.
Qed.

Ltac acc_done :=
  constructor; simp;
  unfold count, replay in *;
  rewrite ?filter_app, ?length_app, ?fold_left_app; cbn;
  try match goal with
      | B : _ = fold_left replayNotice _ _ |- _ => rewrite <- B
      end;
  try reflexivity; try lia.

Lemma Accounted_handle (e : Event) (w : World) :
  Inv w -> Accounted w -> Accounted (handle e w).
Proof.
  intros H [B1 B2 B3 B4]. inv_shape w H; destruct e; crunch; acc_done.
Qed.

Lemma Accounted_commit (w : World) :
  Pending w -> Accounted w -> Accounted (commit w).
Proof.
  intros H [B1 B2 B3 B4]. pen_shape w H; crunch; acc_done.
Qed.

Lemma Accounted_step (e : Event) (w : World) :
  Inv w -> Accounted w -> Accounted (step e w).
Proof.
  intros H B. pose proof (handle_Pending e w H) as HP.
  pose proof (Accounted_handle e w H B) as B1. unfold step.
  destruct (resumeGuard (snapshot (handle e w))) eqn:Hg.
  - rewrite (settle_resume _ HP Hg).
    destruct (commit_resume _ HP Hg) as [HP1 _].
    apply Accounted_commit; [exact HP1|]. apply Accounted_commit; assumption.
  - rewrite (settle_quiet _ HP Hg). apply Accounted_commit; assumption.
Qed.

Lemma Accounted_run (es : list Event) : Accounted (run es initial).
Proof.
  assert (G : forall w, Inv w -> Accounted w ->
                        Inv (run es w) /\ Accounted (run es w)).
  { induction es as [|e es IH]; intros w H B; [split; assumption|].
    apply (IH (step e w)); [apply step_Inv, H | apply Accounted_step; assumption]. }
  apply G; [apply initial_Inv|]. constructor; reflexivity.
Qed.

Lemma compare_lex_trans (e1 e2 e3 : Z) (m1 m2 m3 : positive) :
  match (e1 ?= e2)%Z with
  | Eq => (m1 ?= m2)%positive | Lt => Lt | Gt => Gt end <> Gt ->
  match (e2 ?= e3)%Z with
  | Eq => (m2 ?= m3)%positive | Lt => Lt | Gt => Gt end <> Gt ->
  match (e1 ?= e3)%Z with
  | Eq => (m1 ?= m3)%positive | Lt => Lt | Gt => Gt end <> Gt.
Proof.
  intros H1 H2.
  destruct (Z.compare_spec e1 e2) as [E12|L12|G12];
    [ | | exfalso; apply H1; reflexivity];
    (destruct (Z.compare_spec e2 e3) as [E23|L23|G23];
     [ | | exfalso; apply H2; reflexivity]);
    destruct (Z.compare_spec e1 e3) as [E13|L13|G13];
    try (exfalso; lia); try discriminate.
  exact (Pos.le_trans m1 m2 m3 H1 H2).
Qed.

Lemma compare_lex_opp_trans (e1 e2 e3 : Z) (m1 m2 m3 : positive) :
  match (e1 ?= e2)%Z with
  | Eq => CompOpp (m1 ?= m2)%positive | Lt => Gt | Gt => Lt end <> Gt ->
  match (e2 ?= e3)%Z with
  | Eq => CompOpp (m2 ?= m3)%positive | Lt => Gt | Gt => Lt end <> Gt ->
  match (e1 ?= e3)%Z with
  | Eq => CompOpp (m1 ?= m3)%positive | Lt => Gt | Gt => Lt end <> Gt.
Proof.
  rewrite <- !Pos.compare_antisym. intros H1 H2.
  destruct (Z.compare_spec e1 e2) as [E12|L12|G12];
    [ | exfalso; apply H1; reflexivity | ];
    (destruct (Z.compare_spec e2 e3) as [E23|L23|G23];
     [ | exfalso; apply H2; reflexivity | ]);
    destruct (Z.compare_spec e1 e3) as [E13|L13|G13];
    try (exfalso; lia); try discriminate.
  exact (Pos.le_trans m3 m2 m1 H2 H1).
Qed.

Lemma leb_of_compare (c : comparison) :
  match c with Gt => false | _ => true end = true <-> c <> Gt.
Proof. destruct c; split; intros; try reflexivity; congruence. Qed.

Lemma SFleb_trans (a b c : spec_float) :
  SFleb a b = true -> SFleb b c = true -> SFleb a c = true.
Proof.
  unfold SFleb.
  destruct a as [sa|sa| |sa ma ea], b as [sb|sb| |sb mb eb],
    c as [sc|sc| |sc mc ec]; cbn [SFcompare];
    try discriminate; try reflexivity;
    try (destruct sa; try discriminate; try reflexivity);
    try (destruct sb; try discriminate; try reflexivity);
    try (destruct sc; try discriminate; try reflexivity).
  all: change (Pos.compare_cont Eq ?p ?q) with (Pos.compare p q).
  all: rewrite !leb_of_compare.
  - apply compare_lex_opp_trans.
  - apply compare_lex_trans.
Qed.

Lemma ge_trans (a b c : float) :
  Js.ge a b = true -> Js.ge b c = true -> Js.ge a c = true.
Proof.
  unfold Js.ge. rewrite !leb_spec. intros H1 H2.
  exact (SFleb_trans _ _ _ H2 H1).
Qed.

Lemma ge_nan (a c : float) : PrimFloat.is_nan c = true -> Js.ge c a = false.
Proof.
  unfold Js.ge, PrimFloat.is_nan. rewrite eqb_spec, leb_spec.
  intros H. apply negb_true_iff in H.
  destruct (Prim2SF c) as [s|s| |s m e]; unfold SFeqb in H; cbn in H;
    try (destruct s; discriminate H); try discriminate H.
  - unfold SFleb. destruct (Prim2SF a); reflexivity.
  - rewrite Z.compare_refl, Pos.compare_cont_refl in H.
    destruct s; discriminate H.
Qed.

(** X13. Start and stop notifications alternate, a start first: at any
    time there is one more start than stops exactly when the session is
    active. *)
Theorem notices_alternate (es : list Event) :
  let w := run es initial in
  count isStartNotice (trace w)
  = count isStopNotice (trace w) + Nat.b2n (App.isCapturing (app w)).
Proof. intros w. apply (acc_notices w), Accounted_run. Qed.

(** X14. Every request is announced: the recognition-start notifications
    are as many as the requests sent. *)
Theorem requests_are_announced (es : list Event) :
  let w := run es initial in
  count isRecognitionStart (trace w) = count isRequest (trace w) /\
  count isRequest (trace w) = nextRequest w.
Proof.
  intros w. pose proof (Accounted_run es) as B.
  split; [apply (acc_started w B) | apply (acc_requests w B)].
Qed.

Lemma coordinator_state_replay (es : list Event) :
  app (run es initial) = replay (trace (run es initial)).
Proof. apply acc_replay, Accounted_run. Qed.

(** X15. The capture loop reaches the coordinator through its five
    callbacks only: the coordinator's state is what its handlers make of
    the callbacks in the order they were called, remounts included. *)
Theorem coordinator_follows_callbacks (es : list Event) :
  app (run es initial) = replay (trace (run es initial)) /\
  forall e, app (handle e (run es initial))
            = replay (trace (handle e (run es initial))).
Proof.
  split; [apply coordinator_state_replay|].
  intros e. apply acc_replay, Accounted_handle;
    [apply run_Inv, initial_Inv | apply Accounted_run].
Qed.

(** X16. An idle session has no interval, neither scheduled nor in its
    state cell. *)
Theorem idle_has_no_interval (es : list Event) :
  let w := run es initial in
  App.isCapturing (app w) = false ->
  captureInterval w = None /\ timers w = [].
Proof.
  intros w Hc. apply inactive_no_timers; [apply run_Inv, initial_Inv | exact Hc].
Qed.

Lemma idle_has_no_interval_witness :
  App.isCapturing (app (run [Toggle; WebcamInit; Toggle; Toggle] initial))
  = false /\
  timers (run [Toggle; WebcamInit; Toggle; Toggle] initial) = [].
Proof.
  split; [reflexivity|].
  destruct (idle_has_no_interval [Toggle; WebcamInit; Toggle; Toggle] eq_refl)
    as [_ Ht].
  exact Ht.
Defined.

(** X17. An active session whose camera is ready has its interval: the
    one scheduled is the one in the state cell. *)
Theorem active_ready_has_interval (es : list Event) :
  let w := run es initial in
  App.isCapturing (app w) = true ->
  isCameraReady w = true ->
  exists id cb, captureInterval w = Some id /\ timers w = [(id, cb)].
Proof.
  intros w Hc Hr. assert (H : Inv w) by apply run_Inv, initial_Inv.
  clearbody w. inv_shape w H; try discriminate.
  exists i, cb. split; reflexivity.
Qed.

Lemma active_ready_has_interval_witness :
  App.isCapturing (app (run resumedRun initial)) = true /\
  isCameraReady (run resumedRun initial) = true /\
  exists id cb, timers (run resumedRun initial) = [(id, cb)].
Proof.
  split; [reflexivity|]. split; [reflexivity|].
  destruct (active_ready_has_interval resumedRun eq_refl eq_refl)
    as (id & cb & _ & Ht).
  exists id, cb. exact Ht.
Defined.

(** X18. Between two events the ref holds the current flag and the
    handlers are those of a render that saw the current state. *)
Theorem ref_mirrors_flag (es : list Event) :
  let w := run es initial in
  isCapturingRef w = App.isCapturing (app w) /\ rendered w = snapshot w.
Proof.
  intros w. assert (H : Inv w) by apply run_Inv, initial_Inv.
  split; [apply (inv_ref w H) | apply (inv_rendered w H)].
Qed.

(** X19. The effects that write state do not make the component render
    for ever: after any event two renders reach a state in which nothing
    is left to render, and further renders change nothing. *)
Theorem render_loop_terminates (es : list Event) (e : Event) (n : nat) :
  let w := run es initial in
  settle (2 + n) (handle e w) = step e w /\
  stable (step e w) = true /\
  commit (step e w) = step e w.
Proof.
  intros w. assert (H : Inv w) by apply run_Inv, initial_Inv.
  assert (HP : Pending (handle e w)) by apply handle_Pending, H.
  assert (H1 : Inv (step e w)) by apply step_Inv, H.
  split; [|split; [apply Inv_stable, H1 | apply commit_Inv_id, H1]].
  unfold step. rewrite (settle_enough n _ HP).
  symmetry. apply (settle_enough 1 _ HP).
Qed.

(** X23. A higher confidence never gets a lower class. *)
Theorem tiers_are_monotone (c1 c2 : float) :
  Js.ge c2 c1 = true ->
  (getConfidenceColor c1 = "high-confidence" ->
   getConfidenceColor c2 = "high-confidence") /\
  (getConfidenceColor c2 = "low-confidence" ->
   getConfidenceColor c1 = "low-confidence").
Proof.
  intros H. unfold getConfidenceColor.
  pose proof (ge_trans c2 c1 0.8 H) as T8.
  pose proof (ge_trans c2 c1 0.5 H) as T5.
  destruct (Js.ge c1 0.8), (Js.ge c1 0.5), (Js.ge c2 0.8), (Js.ge c2 0.5);
    try (specialize (T8 eq_refl)); try (specialize (T5 eq_refl));
    split; intros; try reflexivity; try discriminate.
Qed.

Lemma tiers_are_monotone_witness :
  Js.ge 0.92 0.85 = true /\ getConfidenceColor 0.92 = "high-confidence".
Proof.
  split; [reflexivity|].
  destruct (tiers_are_monotone 0.85 0.92 eq_refl) as [Hh _].
  apply Hh. reflexivity.
Defined.

(** X24. A confidence that is not a number gets the low class. *)
Theorem nan_is_low (c : float) :
  PrimFloat.is_nan c = true -> getConfidenceColor c = "low-confidence".
Proof.
  intros H. unfold getConfidenceColor.
  rewrite !(ge_nan _ c H). reflexivity.
Qed.

Lemma nan_is_low_witness :
  PrimFloat.is_nan nan = true /\ getConfidenceColor nan = "low-confidence".
Proof.
  split; [reflexivity|]. apply (nan_is_low nan). reflexivity.
Defined.

Lemma replay_no_success (t : list Effect) :
  count isSuccessNotice t = 0 ->
  App.recognizedObjects (replay t) = Js.Arr [].
Proof.
  unfold replay.
  assert (G : forall s, count isSuccessNotice t = 0 ->
            App.recognizedObjects (fold_left replayNotice t s)
            = App.recognizedObjects s).
  { induction t as [|e t IH]; intros s Hc; [reflexivity|].
    cbn [fold_left]. unfold count in Hc. cbn [filter] in Hc.
    destruct e; cbn in Hc; try discriminate Hc;
      rewrite (IH _ Hc); reflexivity. }
  intros Hc. rewrite (G _ Hc). reflexivity.
Qed.

(** X25. Until a recognition succeeds the stored list is the initial empty
    one, whatever failed meanwhile, so the presenter shows its
    placeholder whenever it is shown. *)
Theorem placeholder_until_first_success (es : list Event) :
  let w := run es initial in
  count isSuccessNotice (trace w) = 0 ->
  App.recognizedObjects (app w) = Js.Arr [] /\
  presenterBranch (App.recognizedObjects (app w)) = Placeholder.
Proof.
  intros w Hc.
  assert (E : App.recognizedObjects (app w) = Js.Arr []).
  { unfold w. rewrite coordinator_state_replay. apply replay_no_success, Hc. }
  rewrite E. split; reflexivity.
Qed.

Lemma placeholder_until_first_success_witness :
  count isSuccessNotice
    (trace (run (polledRun ++ [Response 0 (Resolved wrongField)]) initial)) = 0 /\
  presenterBranch
    (App.recognizedObjects
       (app (run (polledRun ++ [Response 0 (Resolved wrongField)]) initial)))
  = Placeholder.
Proof.
  split; [reflexivity|].
  destruct (placeholder_until_first_success
              (polledRun ++ [Response 0 (Resolved wrongField)]) eq_refl)
    as [_ Hp].
  exact Hp.
Defined.

(** X26. On a page that has rendered so far, a response whose [objects] is
    a truthy string, number or boolean passes the client's test: the rest
    of [captureAndRecognize] hands it to the success callback, it is
    stored, the results section is due to render the presenter with it,
    and the presenter's [objects.map] throws on it, so the page does not
    render any more.  What React does after the throw is not followed. *)
Theorem primitive_objects_break_presenter (es : list Event) (k : nat)
    (data : Js.Value) :
  let w := run es initial in
  renderedSoFar w = true ->
  existsb (Nat.eqb k) (inflight w) = true ->
  Js.truthy (Js.objects data) = true ->
  isPrimitive (Js.objects data) = true ->
  let w' := respond k (Resolved data) w in
  trace w' = trace w ++ [OnObjectsRecognized (Js.objects data)] /\
  App.resultsView (app w') = App.Presenter (Js.objects data) /\
  presenterBranch (Js.objects data) = TypeError /\
  renderedSoFar w' = false.
Proof.
  intros w R Hk T P w'.
  subst w'. rewrite (respond_success k data w Hk T).
  assert (B : presenterBranch (Js.objects data) = TypeError).
  { destruct (Js.objects data); cbn in T, P |- *; try discriminate.
    - reflexivity.
    - reflexivity.
    - apply negb_true_iff in T. rewrite T. reflexivity. }
  assert (D : isDetectionList (Js.objects data) = false).
  { destruct (Js.objects data); cbn in P |- *; try discriminate; reflexivity. }
  repeat split; try exact B.
  unfold renderedSoFar in *. cbn. rewrite forallb_app, R. cbn.
  rewrite D. reflexivity.
Qed.

Lemma primitive_objects_break_presenter_witness :
  existsb (Nat.eqb 0) (inflight (run polledRun initial)) = true /\
  App.resultsView
    (app (respond 0 (Resolved catBody) (run polledRun initial)))
  = App.Presenter (Js.Str "cat") /\
  presenterBranch (Js.Str "cat") = TypeError.
Proof.
  split; [reflexivity|].
  destruct (primitive_objects_break_presenter polledRun 0 catBody
              eq_refl eq_refl eq_refl eq_refl)
    as (_ & Hv & Hp & _).
  split; [exact Hv | exact Hp].
Defined.

Lemma commit_ready (w : World) :
  Pending w -> isCameraReady (commit w) = isCameraReady w.
Proof. intros H. pen_shape w H; crunch; reflexivity. Qed.

Lemma step_ready (e : Event) (w : World) :
  Inv w -> isCameraReady (step e w) = isCameraReady (handle e w).
Proof.
  intros H. pose proof (handle_Pending e w H) as HP. unfold step.
  destruct (resumeGuard (snapshot (handle e w))) eqn:Hg.
  - rewrite (settle_resume _ HP Hg).
    destruct (commit_resume _ HP Hg) as [HP1 _].
    rewrite (commit_ready _ HP1). apply commit_ready, HP.
  - rewrite (settle_quiet _ HP Hg). apply commit_ready, HP.
Qed.

(** X20. The second run of the clean-ups and effects that strict mode
    adds to a mount changes nothing: no interval is set up twice. *)
Theorem strict_mode_mount_is_mount (w : World) :
  strictMount w = mount w /\ timers (strictMount w) = timers w.
Proof.
  split; [apply strictMount_mount|].
  rewrite strictMount_mount.
  destruct w as [[] ? ? ? ? ? ? ? ? ? ?]. crunch; reflexivity.
Qed.

(** X21. Starting a session that is active does nothing, so a second start
    changes nothing. *)
Theorem second_start_is_noop (es : list Event) :
  let w := run es initial in
  step Start (step Start w) = step Start w /\
  (App.isCapturing (app w) = true -> step Start w = w).
Proof.
  intros w. split; [apply start_idempotent|].
  intros Hc. assert (H : Inv w) by apply run_Inv, initial_Inv.
  apply step_noop; [exact H | apply start_active; assumption].
Qed.

Lemma second_start_is_noop_witness :
  App.isCapturing (app (run [Start] initial)) = true /\
  step Start (run [Start] initial) = run [Start] initial.
Proof.
  split; [reflexivity|].
  destruct (second_start_is_noop [Start]) as [_ Hn].
  apply Hn. reflexivity.
Defined.

(** X22. Within an event too, after the handler and after the first
    render, at most one interval is scheduled. *)
Theorem one_interval_within_event (es : list Event) (e : Event) :
  let w := handle e (run es initial) in
  List.length (timers w) <= 1 /\ List.length (timers (commit w)) <= 1.
Proof. apply never_two_intervals. Qed.

(** X27. Once the camera is initialised the button works again: it is
    ready in whatever state the callback finds the page, and a click then
    acts on the flag. *)
Theorem camera_init_enables_toggle (es : list Event) :
  let w' := step WebcamInit (run es initial) in
  isCameraReady w' = true /\
  step Toggle w'
  = if App.isCapturing (app w') then step Stop w' else step Start w'.
Proof.
  intros w'. assert (H : Inv (run es initial)) by apply run_Inv, initial_Inv.
  assert (Hr : isCameraReady w' = true).
  { unfold w'. rewrite (step_ready _ _ H). reflexivity. }
  split; [exact Hr|].
  apply toggle_ready; [apply step_Inv, H | exact Hr].
Qed.
